(** * MSFS Flight Monitor: the telemetry polling engine and its analytics

    A shallow embedding of the core of [main.py] (class [MSFSFlightMonitor]):
    the great-circle distance, the landing rating, the landing history and
    the polling loop [monitor_flight] with its touchdown latch, approach
    recording and waypoint proximity check.

    Numbers.  In the monitor Python floats are read as exact numbers:
    telemetry values, scores and thresholds are rationals ([Q], decimal
    literals are exact) and the distance is the real number ([R]) the
    haversine formula denotes, module [GeoMath]; comparisons and the control
    flow are those of the source.  What [calculate_distance] does on the
    machine is module [Binary64]: the same formula in binary64 arithmetic,
    with CPython's wrappers around the C library's functions, where rounding
    can push the argument of [math.asin] above 1.

    Effects.  A method that mutates [self], emits Qt signals or may raise is
    a computation in the monad [M]: it threads the object's state, collects
    the emitted events in order, and an exception stops the computation
    while keeping the state reached so far, as in Python.

    Threads.  The polling thread is the only writer of the state while a
    pass runs, and a signal is delivered when it is emitted: the slot
    [add_approach_point] has appended the point before the pass goes on.
    Window, map and chart updates are left out or kept as events. *)

From Stdlib Require Import Floats.
From Stdlib Require Uint63.
From Stdlib Require Import QArith Qabs Qreals Reals Psatz List String Bool Arith ZArith.
Import ListNotations.

(** ** Python-level primitives: exceptions and results *)

(** The SimConnect variables the loop reads each tick. *)
Inductive simvar : Type :=
| PLANE_LATITUDE
| PLANE_LONGITUDE
| PLANE_ALTITUDE
| VERTICAL_SPEED
| SIM_ON_GROUND
| G_FORCE
| PLANE_HEADING_DEGREES_TRUE.

Inductive exn : Type :=
| SimConnectError (v : simvar)   (* [self.aq.get(...)] raised *)
| ValueError                     (* math domain error *)
| TypeError                      (* arithmetic on [None] *)
| IndexError
| IOError                        (* open / json.load failed *)
| OverflowError.                 (* math range error *)

Inductive result (A : Type) : Type :=
| Ok (a : A)
| Raise (e : exn).

Arguments Ok {A} a.
Arguments Raise {A} e.

Definition bindR {A B : Type} (r : result A) (k : A -> result B) : result B :=
  match r with
  | Ok a => k a
  | Raise e => Raise e
  end.

Declare Scope result_scope.
Delimit Scope result_scope with result.
Notation "x <~ r ;; k" := (bindR r (fun x => k))
  (at level 61, r at next level, right associativity) : result_scope.

(** [x < y] on numbers. *)
Definition Qltb (x y : Q) : bool := negb (Qle_bool y x).

(** ** GeoMath: [calculate_distance] over the real numbers

    The formula of the source read in exact arithmetic: the distance the
    statements about the monitor speak of.  The evaluation in binary64 is
    [Binary64.calculate_distance] below. *)

Module GeoMath.
Local Open Scope R_scope.

(** [math.radians]. *)
Definition radians (x : R) : R := x * (PI / 180).

(** [math.sqrt] raises [ValueError] on a negative argument. *)
Definition math_sqrt (x : R) : result R :=
  if Rlt_dec x 0 then Raise ValueError else Ok (sqrt x).

(** [math.asin] raises [ValueError] outside [-1, 1]. *)
Definition math_asin (x : R) : result R :=
  if Rle_dec (-1) x then
    if Rle_dec x 1 then Ok (asin x) else Raise ValueError
  else Raise ValueError.

(** The haversine argument [a] of the source. *)
Definition haversine_a (lat1 lon1 lat2 lon2 : R) : R :=
  let lat1_rad := radians lat1 in
  let lat2_rad := radians lat2 in
  let delta_lat := radians (lat2 - lat1) in
  let delta_lon := radians (lon2 - lon1) in
  sin (delta_lat / 2) ^ 2 + cos lat1_rad * cos lat2_rad * sin (delta_lon / 2) ^ 2.

Definition calculate_distance (lat1 lon1 lat2 lon2 : R) : result R :=
  let R_ := 3440.065 in
  let a := haversine_a lat1 lon1 lat2 lon2 in
  (s <~ math_sqrt a ;;
   as_ <~ math_asin s ;;
   let c := 2 * as_ in
   Ok (R_ * c))%result.

(** The value [calculate_distance] returns when no domain error occurs. *)
Definition distanceNm (lat1 lon1 lat2 lon2 : R) : R :=
  3440.065 * (2 * asin (sqrt (haversine_a lat1 lon1 lat2 lon2))).

End GeoMath.

(** ** GeoMath in binary64: [calculate_distance] as CPython evaluates it *)

Module Binary64.
Local Open Scope float_scope.

(** The functions of the C library behind [math.sin], [math.cos],
    [math.asin] and [**]. They are not part of the program; a statement
    that depends on their values names the values it uses. *)
Record libm : Type := mk_libm {
  c_sin : float -> float;
  c_cos : float -> float;
  c_asin : float -> float;
  c_pow : float -> float -> float
}.

(** CPython's [math_1], the wrapper of a C function of one argument: a
    NaN result from an argument that is not NaN, and an infinite result
    from a finite argument, are a "math domain error". *)
Definition math_1 (func : float -> float) (x : float) : result float :=
  let r := func x in
  if is_nan r && negb (is_nan x) then Raise ValueError
  else if is_infinity r && is_finite x then Raise ValueError
  else Ok r.

Definition math_sin (m : libm) : float -> result float := math_1 (c_sin m).
Definition math_cos (m : libm) : float -> result float := math_1 (c_cos m).
Definition math_asin (m : libm) : float -> result float := math_1 (c_asin m).

(** [math.sqrt]: the C function is the correctly rounded square root. *)
Definition math_sqrt : float -> result float := math_1 PrimFloat.sqrt.

(** [iv ** 2], CPython's [float_pow] with the exponent 2: the special
    cases it sorts out itself, then the C library's [pow] on the absolute
    value, an infinite result being a "math range error". *)
Definition float_pow2 (m : libm) (iv : float) : result float :=
  if is_nan iv then Ok iv
  else if is_infinity iv then Ok (abs iv)
  else if iv =? 0 then Ok 0
  else
    let iv := abs iv in
    if iv =? 1 then Ok 1
    else
      let ix := c_pow m iv 2 in
      if is_infinity ix then Raise OverflowError else Ok ix.

(** [math.radians]: [x * (pi / 180)], with the double nearest to pi. *)
Definition degToRad : float := 0x1.921fb54442d18p+1 / 180.

Definition radians (x : float) : float := x * degToRad.

(** [math.sin(x) ** 2]. *)
Definition sin_squared (m : libm) (x : float) : result float :=
  (s <~ math_sin m x ;; float_pow2 m s)%result.

(** The operands are evaluated from left to right, as Python does. *)
#[warnings="-inexact-float"]
Definition calculate_distance (m : libm) (lat1 lon1 lat2 lon2 : float) : result float :=
  let R_ := 3440.065 in
  let lat1_rad := radians lat1 in
  let lat2_rad := radians lat2 in
  let delta_lat := radians (lat2 - lat1) in
  let delta_lon := radians (lon2 - lon1) in
  (p1 <~ sin_squared m (delta_lat / 2) ;;
   c1 <~ math_cos m lat1_rad ;;
   c2 <~ math_cos m lat2_rad ;;
   p2 <~ sin_squared m (delta_lon / 2) ;;
   let a := p1 + c1 * c2 * p2 in
   r <~ math_sqrt a ;;
   as_ <~ math_asin m r ;;
   let c := 2 * as_ in
   Ok (R_ * c))%result.

(** A C library given by its values at the arguments the examples below
    reach, (64, 0) with (-64.00000001, 180), with (64, 180) and with itself:
    for [sin], [cos], [asin] and [pow] the double nearest to the exact
    value, which is what glibc returns there, [sin] and [asin] keeping a
    zero, [sin] odd. Elsewhere it is left at NaN, which is also what
    [asin] returns outside [-1, 1]; no statement looks at another value. *)
Definition sin_sample (x : float) : float :=
  if x =? 0x1.1df46a2589c6fp+0 then 0x1.cc2ebbb5b7ac6p-1
  else if x =? 0x1.921fb54442d18p+0 then 1
  else nan.

Definition sampled_libm : libm :=
  mk_libm
    (fun x => if x =? 0 then x
              else if x <? 0 then - sin_sample (- x)
              else sin_sample x)
    (fun x => if x =? 0x1.1df46a2529d39p+0 then 0x1.c0e45dabe05c9p-2
              else if x =? -0x1.1df46a25e9ba3p+0 then 0x1.c0e45da92e71bp-2
              else nan)
    (fun x => if x =? 0 then x
              else if x =? 0x1.c0e45dabe05c9p-2 then 0x1.d0ad2c7c63f7ep-2
              else nan)
    (fun x y => if (x =? 0x1.cc2ebbb5b7ac6p-1) && (y =? 2) then 0x1.9d9bfd8e85824p-1
                else nan).

End Binary64.

(** ** LandingRater: [get_landing_rating] *)

Module LandingRater.
Local Open Scope Q_scope.

Definition fpm_score (fpm : Q) : Q :=
  let abs_fpm := Qabs fpm in
  if Qltb abs_fpm 100 then 100
  else if Qltb abs_fpm 200 then 85
  else if Qltb abs_fpm 300 then 70
  else if Qltb abs_fpm 400 then 50
  else if Qltb abs_fpm 600 then 30
  else 10.

Definition g_score (g_force : Q) : Q :=
  if Qltb g_force 1.3 then 100
  else if Qltb g_force 1.5 then 85
  else if Qltb g_force 1.8 then 70
  else if Qltb g_force 2.0 then 50
  else if Qltb g_force 2.5 then 30
  else 10.

Definition combined_score (fpm g_force : Q) : Q :=
  (fpm_score fpm * 0.6) + (g_score g_force * 0.4).

(** The triples the source returns: stars, text, colour. *)
Definition rating : Type := (string * string * string)%type.

Definition PERFECT : rating := ("⭐⭐⭐⭐⭐", "PERFECT - Butter Landing!", "#a6e3a1")%string.
Definition EXCELLENT : rating := ("⭐⭐⭐⭐", "Excellent Landing", "#a6e3a1")%string.
Definition GOOD : rating := ("⭐⭐⭐", "Good Landing", "#f9e2af")%string.
Definition ACCEPTABLE : rating := ("⭐⭐", "Acceptable Landing", "#fab387")%string.
Definition HARD : rating := ("⭐", "Hard Landing - Check Aircraft!", "#f38ba8")%string.

Definition get_landing_rating (fpm g_force : Q) : rating :=
  let combined_score := combined_score fpm g_force in
  if Qle_bool 95 combined_score then PERFECT
  else if Qle_bool 80 combined_score then EXCELLENT
  else if Qle_bool 65 combined_score then GOOD
  else if Qle_bool 45 combined_score then ACCEPTABLE
  else HARD.

(** The combined score as Python evaluates it, in binary64 arithmetic with
    the doubles nearest to 0.6 and 0.4, on the six possible scores. *)
#[warnings="-inexact-float"]
Definition combined_score_binary64 (fpm_score g_score : float) : float :=
  ((fpm_score * 0.6) + (g_score * 0.4))%float.

Definition scores : list Z := [100; 85; 70; 50; 30; 10]%Z.

Definition float_of (z : Z) : float := PrimFloat.of_uint63 (Uint63.of_Z z).

(** On the scores [f] and [g] the binary64 result and the exact one are
    the same integer, [(6 f + 4 g) / 10]. *)
Definition exact_on (f g : Z) : bool :=
  PrimFloat.eqb (combined_score_binary64 (float_of f) (float_of g))
    (float_of ((6 * f + 4 * g) / 10))
  && Qeq_bool (inject_Z f * 0.6 + inject_Z g * 0.4) (inject_Z ((6 * f + 4 * g) / 10)).

(** A star is one character of the source's string, three bytes here. *)
Definition stars (r : rating) : nat := Nat.div (String.length (fst (fst r))) 3.

End LandingRater.

(** ** The monitor object and the effects of its methods *)

Module Monitor.
Import GeoMath LandingRater.

(** An approach sample [(lat, lon, alt)]. *)
Definition point : Type := (Q * Q * Q)%type.

(** [self.landing_data]: a dict; the keys ['approach_distance'] and
    ['avg_descent'] exist only once a touchdown has written them, an absent
    key and a [None] value are both [None] here. *)
Record landing_data : Type := mk_landing_data {
  touchdown_fpm : option Q;
  touchdown_g : option Q;
  touchdown_lat : option Q;
  touchdown_lon : option Q;
  on_ground : bool;
  timestamp : option string;
  airport : string;
  approach_distance : option R;
  avg_descent : option Q
}.

(** An element of [self.landing_history]. *)
Record history_entry : Type := mk_history_entry {
  h_timestamp : option string;
  h_fpm : Q;
  h_g_force : Q;
  h_lat : option Q;
  h_lon : option Q;
  h_airport : string;
  h_rating : string;
  h_rating_text : string
}.

(** An element of [self.waypoints]. *)
Record waypoint : Type := mk_waypoint {
  wp_id : string;
  wp_lat : Q;
  wp_lon : Q;
  wp_altitude : Q;
  wp_pause : bool
}.

(** The history file as [load_landing_history] and [save_landing_history]
    see it.  A file that [open(.., 'w')] has emptied, or that holds only a
    part of a document, is [Garbled]: the document is a JSON array, and no
    proper prefix of its text parses. *)
Inductive file : Type :=
| Missing                              (* [os.path.exists] is false *)
| Garbled                              (* exists; [open] or [json.load] raises *)
| Json (doc : list history_entry).     (* exists and parses to [doc] *)

(** The fields of [self] the core uses, the durable storage, and the local
    variables of a running [monitor_flight]. *)
Record world : Type := mk_world {
  waypoints : list waypoint;
  monitoring : bool;
  landing_history : list history_entry;
  approach_path : list point;
  landing : landing_data;               (* [self.landing_data] *)
  last_altitude : Q;
  history_file : file;
  disk_writable : bool;                 (* whether writing the history file succeeds *)
  disk_openable : bool;                 (* when it fails: whether [open(.., 'w')] had succeeded *)
  was_airborne : bool;                  (* local of [monitor_flight] *)
  last_check_time : Q;                  (* local of [monitor_flight] *)
  recording_approach : bool             (* local of [monitor_flight] *)
}.

Inductive log_msg : Type :=
| LogStarted
| LogStopped
| LogAirborne
| LogRecordingApproach
| LogLanding (vs g_force : Q)
| LogReached (id : string)
| LogMonitoringError (e : exn)
| LogSaveFailed
| LogReset
| LogCleared.

Inductive js : Type :=
| clearBreadcrumbs
| addLandingMarker (lat lon vs g_force : Q).

(** What the core emits: Qt signals, simulator commands, map scripts run
    from the polling thread, table refreshes and sleeps. *)
Inductive event : Type :=
| log_signal (m : log_msg)
| position_signal (lat lon heading alt : Q)
| approach_signal (lat lon alt : Q)
| landing_signal (d : landing_data)
| waypoint_signal
| ae_event (name : string) (value : Z)
| runJavaScript (script : js)
| update_history_table (rows : list history_entry)
| sleep (seconds : Z).

(** *** The monad *)

Definition M (A : Type) : Type := world -> result A * world * list event.

Definition ret {A : Type} (a : A) : M A := fun w => (Ok a, w, []).

Definition bind {A B : Type} (m : M A) (k : A -> M B) : M B :=
  fun w =>
    match m w with
    | (Ok a, w1, ev1) =>
        match k a w1 with
        | (r, w2, ev2) => (r, w2, ev1 ++ ev2)
        end
    | (Raise e, w1, ev1) => (Raise e, w1, ev1)
    end.

Definition raise {A : Type} (e : exn) : M A := fun w => (Raise e, w, []).

Definition lift {A : Type} (r : result A) : M A := fun w => (r, w, []).

Definition gets {A : Type} (f : world -> A) : M A := fun w => (Ok (f w), w, []).

Definition modify (f : world -> world) : M unit := fun w => (Ok tt, f w, []).

Definition emit (e : event) : M unit := fun w => (Ok tt, w, [e]).

(** [try: body  except Exception as e: handler e]. *)
Definition try_except {A : Type} (body : M A) (handler : exn -> M A) : M A :=
  fun w =>
    match body w with
    | (Ok a, w1, ev1) => (Ok a, w1, ev1)
    | (Raise e, w1, ev1) =>
        match handler e w1 with
        | (r, w2, ev2) => (r, w2, ev1 ++ ev2)
        end
    end.

Definition when (b : bool) (m : M unit) : M unit := if b then m else ret tt.

Declare Scope monitor_scope.
Delimit Scope monitor_scope with monitor.
Notation "x <- m ;; k" := (bind m (fun x => k))
  (at level 61, m at next level, right associativity) : monitor_scope.
Notation "m ;; k" := (bind m (fun _ => k))
  (at level 61, right associativity) : monitor_scope.
Local Open Scope monitor_scope.

(** The state a computation ends in, and the events it emits. *)
Definition exec {A : Type} (m : M A) (w : world) : world := snd (fst (m w)).
Definition events {A : Type} (m : M A) (w : world) : list event := snd (m w).
Definition outcome {A : Type} (m : M A) (w : world) : result A := fst (fst (m w)).

(** *** Field updates *)

Definition set_waypoints (v : list waypoint) (w : world) : world :=
  mk_world v (monitoring w) (landing_history w) (approach_path w) (landing w)
    (last_altitude w) (history_file w) (disk_writable w) (disk_openable w)
    (was_airborne w) (last_check_time w) (recording_approach w).

Definition set_monitoring (v : bool) (w : world) : world :=
  mk_world (waypoints w) v (landing_history w) (approach_path w) (landing w)
    (last_altitude w) (history_file w) (disk_writable w) (disk_openable w)
    (was_airborne w) (last_check_time w) (recording_approach w).

Definition set_landing_history (v : list history_entry) (w : world) : world :=
  mk_world (waypoints w) (monitoring w) v (approach_path w) (landing w)
    (last_altitude w) (history_file w) (disk_writable w) (disk_openable w)
    (was_airborne w) (last_check_time w) (recording_approach w).

Definition set_approach_path (v : list point) (w : world) : world :=
  mk_world (waypoints w) (monitoring w) (landing_history w) v (landing w)
    (last_altitude w) (history_file w) (disk_writable w) (disk_openable w)
    (was_airborne w) (last_check_time w) (recording_approach w).

Definition set_landing (v : landing_data) (w : world) : world :=
  mk_world (waypoints w) (monitoring w) (landing_history w) (approach_path w) v
    (last_altitude w) (history_file w) (disk_writable w) (disk_openable w)
    (was_airborne w) (last_check_time w) (recording_approach w).

Definition set_last_altitude (v : Q) (w : world) : world :=
  mk_world (waypoints w) (monitoring w) (landing_history w) (approach_path w)
    (landing w) v (history_file w) (disk_writable w) (disk_openable w)
    (was_airborne w) (last_check_time w) (recording_approach w).

Definition set_history_file (v : file) (w : world) : world :=
  mk_world (waypoints w) (monitoring w) (landing_history w) (approach_path w)
    (landing w) (last_altitude w) v (disk_writable w) (disk_openable w)
    (was_airborne w) (last_check_time w) (recording_approach w).

Definition set_was_airborne (v : bool) (w : world) : world :=
  mk_world (waypoints w) (monitoring w) (landing_history w) (approach_path w)
    (landing w) (last_altitude w) (history_file w) (disk_writable w)
    (disk_openable w) v (last_check_time w) (recording_approach w).

Definition set_last_check_time (v : Q) (w : world) : world :=
  mk_world (waypoints w) (monitoring w) (landing_history w) (approach_path w)
    (landing w) (last_altitude w) (history_file w) (disk_writable w)
    (disk_openable w) (was_airborne w) v (recording_approach w).

Definition set_recording_approach (v : bool) (w : world) : world :=
  mk_world (waypoints w) (monitoring w) (landing_history w) (approach_path w)
    (landing w) (last_altitude w) (history_file w) (disk_writable w)
    (disk_openable w) (was_airborne w) (last_check_time w) v.

(** [self.landing_data[key] = v]. *)
Definition put_touchdown (fpm g lat lon : Q) (d : landing_data) : landing_data :=
  mk_landing_data (Some fpm) (Some g) (Some lat) (Some lon) (on_ground d)
    (timestamp d) (airport d) (approach_distance d) (avg_descent d).

Definition put_on_ground (v : bool) (d : landing_data) : landing_data :=
  mk_landing_data (touchdown_fpm d) (touchdown_g d) (touchdown_lat d)
    (touchdown_lon d) v (timestamp d) (airport d) (approach_distance d)
    (avg_descent d).

Definition put_timestamp (v : string) (d : landing_data) : landing_data :=
  mk_landing_data (touchdown_fpm d) (touchdown_g d) (touchdown_lat d)
    (touchdown_lon d) (on_ground d) (Some v) (airport d) (approach_distance d)
    (avg_descent d).

Definition put_approach_distance (v : R) (d : landing_data) : landing_data :=
  mk_landing_data (touchdown_fpm d) (touchdown_g d) (touchdown_lat d)
    (touchdown_lon d) (on_ground d) (timestamp d) (airport d) (Some v)
    (avg_descent d).

Definition put_avg_descent (v : Q) (d : landing_data) : landing_data :=
  mk_landing_data (touchdown_fpm d) (touchdown_g d) (touchdown_lat d)
    (touchdown_lon d) (on_ground d) (timestamp d) (airport d)
    (approach_distance d) (Some v).

(** The dict built in [__init__] and in [reset_landing_data]. *)
Definition fresh_landing_data : landing_data :=
  mk_landing_data None None None None true None "Unknown" None None.

(** *** HistoryStore *)

Definition os_path_exists (f : file) : bool :=
  match f with
  | Missing => false
  | _ => true
  end.

(** [with open(history_file, 'r') as f: json.load(f)]. *)
Definition json_load (f : file) : result (list history_entry) :=
  match f with
  | Json doc => Ok doc
  | _ => Raise IOError
  end.

Definition load_landing_history (f : file) : result (list history_entry) :=
  if os_path_exists f then
    match json_load f with
    | Ok doc => Ok doc
    | Raise _ => Ok []            (* bare [except: return []] *)
    end
  else Ok [].

(** [open(history_file, 'w')]: it raises and leaves the file alone, or it
    succeeds and has emptied the file, which no longer parses. *)
Definition open_w : M unit :=
  ok <- gets (fun w => disk_writable w || disk_openable w) ;;
  if ok : bool then modify (set_history_file Garbled) else raise IOError.

(** [json.dump(self.landing_history, f, indent=2)] and the close of the
    file: when it raises, what it has written is a part of the document. *)
Definition json_dump : M unit :=
  ok <- gets disk_writable ;;
  if ok : bool then
    h <- gets landing_history ;;
    modify (set_history_file (Json h))
  else raise IOError.

Definition save_landing_history : M unit :=
  try_except
    (open_w ;; json_dump)
    (fun _ => emit (log_signal LogSaveFailed)).

(** [get_landing_rating] applied to a dict value: [abs(None)] raises. *)
Definition number (v : option Q) : M Q :=
  match v with
  | Some x => ret x
  | None => raise TypeError
  end.

Definition save_landing_to_history (data : landing_data) : M unit :=
  fpm <- number (touchdown_fpm data) ;;
  g <- number (touchdown_g data) ;;
  let '(rating, text, _) := get_landing_rating fpm g in
  let entry :=
    mk_history_entry (timestamp data) fpm g (touchdown_lat data)
      (touchdown_lon data) (airport data) rating text in
  modify (fun w => set_landing_history (entry :: landing_history w) w) ;;
  n <- gets (fun w => List.length (landing_history w)) ;;
  when (100 <? n)%nat
    (modify (fun w => set_landing_history (firstn 100 (landing_history w)) w)) ;;
  save_landing_history ;;
  h <- gets landing_history ;;
  emit (update_history_table h).

(** [clear_history]; [reply_yes] is the answer to the confirmation box. *)
Definition clear_history (reply_yes : bool) : M unit :=
  when reply_yes
    (modify (set_landing_history []) ;;
     save_landing_history ;;
     h <- gets landing_history ;;
     emit (update_history_table h) ;;
     emit (log_signal LogCleared)).

(** [reset_landing_data] (its label updates are presentation). *)
Definition reset_landing_data : M unit :=
  modify (set_landing fresh_landing_data) ;;
  modify (set_approach_path []) ;;
  emit (log_signal LogReset).

(** *** FlightEventDetector: [monitor_flight] *)

(** What one pass of the loop gets from outside: the simulator's answer to
    each read, [time.time()] and the formatted [datetime.now()]. *)
Record tick_env : Type := mk_tick_env {
  aq_get : simvar -> result Q;
  time_time : Q;
  datetime_now : string
}.

(** The slot [add_approach_point], connected to [approach_signal]; the
    signal is delivered before the loop goes on. *)
Definition add_approach_point (lat lon alt : Q) : M unit :=
  modify (fun w => set_approach_path (approach_path w ++ [(lat, lon, alt)]) w).

Definition emit_approach (lat lon alt : Q) : M unit :=
  emit (approach_signal lat lon alt) ;;
  add_approach_point lat lon alt.

(** [enumerate]. *)
Definition enumerate {A : Type} (l : list A) : list (nat * A) :=
  combine (seq 0 (List.length l)) l.

(** [sum] of a list of numbers. *)
Definition sum (l : list Q) : Q := fold_left Qplus l 0%Q.

Definition alt_of (p : point) : Q := snd p.

(** [sum([abs(p[2] - path[i-1][2]) for i, p in enumerate(path) if i > 0])]. *)
Definition total_vs (path : list point) : Q :=
  sum (map (fun ip : nat * point =>
              let (i, p) := ip in
              Qabs (alt_of p - alt_of (nth (i - 1) path p)))
         (filter (fun ip : nat * point => (0 <? fst ip)%nat) (enumerate path))).

(** The block under [# Calculate approach stats]. *)
Definition approach_stats (lat lon : Q) : M unit :=
  path <- gets approach_path ;;
  when (1 <? List.length path)%nat
    (match path with
     | [] => raise IndexError
     | start_point :: _ =>
         distance <- lift (calculate_distance (Q2R (fst (fst start_point)))
                             (Q2R (snd (fst start_point))) (Q2R lat) (Q2R lon)) ;;
         modify (fun w => set_landing (put_approach_distance distance (landing w)) w) ;;
         let total_vs := total_vs path in
         let avg_vs :=
           if (1 <? List.length path)%nat
           then (total_vs / inject_Z (Z.of_nat (List.length path - 1)))%Q
           else 0%Q in
         modify (fun w => set_landing (put_avg_descent avg_vs (landing w)) w)
     end).

(** The block under [# Check for landing], once its condition holds. *)
Definition touchdown (env : tick_env) (lat lon vs g_force : Q) : M unit :=
  modify (fun w => set_landing (put_touchdown vs g_force lat lon (landing w)) w) ;;
  modify (fun w => set_landing (put_on_ground true (landing w)) w) ;;
  modify (fun w => set_landing (put_timestamp (datetime_now env) (landing w)) w) ;;
  approach_stats lat lon ;;
  d <- gets landing ;;
  save_landing_to_history d ;;
  d <- gets landing ;;
  emit (landing_signal d) ;;
  emit (log_signal (LogLanding vs g_force)) ;;
  emit (runJavaScript (addLandingMarker lat lon vs g_force)) ;;
  modify (set_recording_approach false).

(** [wp['pause'] = False] on the waypoint at index [i]. *)
Fixpoint clear_pause (i : nat) (wps : list waypoint) : list waypoint :=
  match wps, i with
  | [], _ => []
  | wp :: rest, O =>
      mk_waypoint (wp_id wp) (wp_lat wp) (wp_lon wp) (wp_altitude wp) false :: rest
  | wp :: rest, S j => wp :: clear_pause j rest
  end.

(** [for wp in self.waypoints: ...], from index [i] on. *)
Fixpoint for_waypoints (lat lon : Q) (i : nat) (wps : list waypoint) : M unit :=
  match wps with
  | [] => ret tt
  | wp :: rest =>
      when (wp_pause wp)
        (distance <- lift (calculate_distance (Q2R lat) (Q2R lon)
                             (Q2R (wp_lat wp)) (Q2R (wp_lon wp))) ;;
         if Rlt_dec distance 0.5 then
           emit (ae_event "PAUSE_SET" 1) ;;
           emit (log_signal (LogReached (wp_id wp))) ;;
           modify (fun w => set_waypoints (clear_pause i (waypoints w)) w) ;;
           emit waypoint_signal
         else ret tt) ;;
      for_waypoints lat lon (S i) rest
  end.

(** The block under [# Check for takeoff]. *)
Definition check_takeoff (on_ground_ : Q) : M unit :=
  airborne <- gets was_airborne ;;
  when (Qeq_bool on_ground_ 0 && negb airborne)
    (modify (set_was_airborne true) ;;
     modify (fun w => set_landing (put_on_ground false (landing w)) w) ;;
     emit (log_signal LogAirborne)).

(** The block under [# Record approach]; [not on_ground] on a number is
    [on_ground == 0]. *)
Definition record_approach (lat lon alt vs on_ground_ : Q) : M unit :=
  airborne <- gets was_airborne ;;
  when (airborne && Qltb alt 3000 && Qltb vs (-100) && Qeq_bool on_ground_ 0)
    (recording <- gets recording_approach ;;
     when (negb recording)
       (modify (set_recording_approach true) ;;
        emit (log_signal LogRecordingApproach)) ;;
     emit_approach lat lon alt).

(** The block under [# Check for landing]. *)
Definition check_landing (env : tick_env) (lat lon vs g_force on_ground_ : Q) : M unit :=
  airborne <- gets was_airborne ;;
  latch <- gets (fun w => on_ground (landing w)) ;;
  when (Qeq_bool on_ground_ 1 && airborne && negb latch)
    (touchdown env lat lon vs g_force).

(** The block under [# Check waypoint proximity]. *)
Definition check_waypoints (env : tick_env) (lat lon : Q) : M unit :=
  let current_time := time_time env in
  last <- gets last_check_time ;;
  when (Qltb 2 (current_time - last))
    (wps <- gets waypoints ;;
     for_waypoints lat lon 0 wps ;;
     modify (set_last_check_time current_time)).

(** The [try] body after its seven reads. *)
Definition process (env : tick_env) (lat lon alt vs on_ground_ g_force heading : Q) : M unit :=
  emit (position_signal lat lon heading alt) ;;
  check_takeoff on_ground_ ;;
  record_approach lat lon alt vs on_ground_ ;;
  check_landing env lat lon vs g_force on_ground_ ;;
  check_waypoints env lat lon ;;
  modify (set_last_altitude alt) ;;
  emit (sleep 1).

(** The body of the [try] in the loop. *)
Definition loop_body (env : tick_env) : M unit :=
  lat <- lift (aq_get env PLANE_LATITUDE) ;;
  lon <- lift (aq_get env PLANE_LONGITUDE) ;;
  alt <- lift (aq_get env PLANE_ALTITUDE) ;;
  vs <- lift (aq_get env VERTICAL_SPEED) ;;
  on_ground_ <- lift (aq_get env SIM_ON_GROUND) ;;
  g_force <- lift (aq_get env G_FORCE) ;;
  heading <- lift (aq_get env PLANE_HEADING_DEGREES_TRUE) ;;
  process env lat lon alt vs on_ground_ g_force heading.

(** One pass of [while self.monitoring: try: ... except Exception as e: ...]. *)
Definition iteration (env : tick_env) : M unit :=
  try_except (loop_body env)
    (fun e =>
       emit (log_signal (LogMonitoringError e)) ;;
       emit (sleep 2)).

(** The loop, for the passes [envs] during which nobody else touches
    [self]; it ends when [self.monitoring] is false or [envs] is used up. *)
Fixpoint monitor_loop (envs : list tick_env) : M unit :=
  match envs with
  | [] => ret tt
  | env :: rest =>
      go <- gets monitoring ;;
      if go : bool then iteration env ;; monitor_loop rest else ret tt
  end.

(** [monitor_flight]; [now] is [time.time()] at its start. *)
Definition monitor_flight (now : Q) (envs : list tick_env) : M unit :=
  modify (set_was_airborne false) ;;
  modify (set_last_check_time now) ;;
  modify (set_recording_approach false) ;;
  monitor_loop envs.

(** [toggle_monitoring]; starting the thread is [monitor_flight] below. *)
Definition toggle_monitoring : M unit :=
  on <- gets monitoring ;;
  if negb on then
    modify (set_monitoring true) ;;
    emit (log_signal LogStarted) ;;
    emit (runJavaScript clearBreadcrumbs) ;;
    modify (set_approach_path [])
  else
    modify (set_monitoring false) ;;
    emit (log_signal LogStopped).

(** A monitoring session: the button starts it, the thread polls. *)
Definition session (now : Q) (envs : list tick_env) : M unit :=
  toggle_monitoring ;;
  monitor_flight now envs.

(** The core fields after [__init__], given the history file found. *)
Definition init (f : file) (writable openable : bool) : result world :=
  (h <~ load_landing_history f ;;
   Ok (mk_world [] false h [] fresh_landing_data 0 f writable openable false 0 false))%result.

(** *** Observers of an event trace *)

Definition is_landing (e : event) : bool :=
  match e with landing_signal _ => true | _ => false end.

Definition is_airborne (e : event) : bool :=
  match e with log_signal LogAirborne => true | _ => false end.

Definition is_command (e : event) : bool :=
  match e with ae_event _ _ => true | _ => false end.

Definition is_sleep (e : event) : bool :=
  match e with sleep _ => true | _ => false end.

Definition count (p : event -> bool) (evs : list event) : nat :=
  List.length (filter p evs).

(** The passes of the loop (counted from [n], each ends with its sleep) in
    which a touchdown was signalled. *)
Fixpoint touchdown_ticks_from (n : nat) (evs : list event) : list nat :=
  match evs with
  | [] => []
  | sleep _ :: rest => touchdown_ticks_from (S n) rest
  | landing_signal _ :: rest => n :: touchdown_ticks_from n rest
  | _ :: rest => touchdown_ticks_from n rest
  end.

Definition touchdown_ticks (evs : list event) : list nat :=
  touchdown_ticks_from 1 evs.

(** A simulator that answers every read; [on_ground_] is the reading of
    [SIM_ON_GROUND]. *)
Definition sample (lat lon alt vs on_ground_ g_force heading : Q) (v : simvar) : result Q :=
  Ok match v with
     | PLANE_LATITUDE => lat
     | PLANE_LONGITUDE => lon
     | PLANE_ALTITUDE => alt
     | VERTICAL_SPEED => vs
     | SIM_ON_GROUND => on_ground_
     | G_FORCE => g_force
     | PLANE_HEADING_DEGREES_TRUE => heading
     end.

End Monitor.

(** ** Vocabulary of the statements *)

Module Spec.
Import GeoMath LandingRater Monitor.

(** The score table of the vertical speed, on [a = |fpm|]. *)
Definition fpm_breakpoints (a s : Q) : Prop :=
  (a < 100 -> s = 100) /\
  (100 <= a -> a < 200 -> s = 85) /\
  (200 <= a -> a < 300 -> s = 70) /\
  (300 <= a -> a < 400 -> s = 50) /\
  (400 <= a -> a < 600 -> s = 30) /\
  (600 <= a -> s = 10).

(** The score table of the g-force. *)
Definition g_breakpoints (g s : Q) : Prop :=
  (g < 1.3 -> s = 100) /\
  (1.3 <= g -> g < 1.5 -> s = 85) /\
  (1.5 <= g -> g < 1.8 -> s = 70) /\
  (1.8 <= g -> g < 2.0 -> s = 50) /\
  (2.0 <= g -> g < 2.5 -> s = 30) /\
  (2.5 <= g -> s = 10).

(** The tier of a combined score. *)
Definition tier_of (c : Q) (r : rating) : Prop :=
  (95 <= c -> r = PERFECT) /\
  (80 <= c -> c < 95 -> r = EXCELLENT) /\
  (65 <= c -> c < 80 -> r = GOOD) /\
  (45 <= c -> c < 65 -> r = ACCEPTABLE) /\
  (c < 45 -> r = HARD).

(** The entry [save_landing_to_history] builds from [data], when the
    touchdown speed and g-force are numbers. *)
Definition entry_of (data : landing_data) : option history_entry :=
  match touchdown_fpm data, touchdown_g data with
  | Some fpm, Some g =>
      let '(rating, text, _) := get_landing_rating fpm g in
      Some (mk_history_entry (timestamp data) fpm g (touchdown_lat data)
              (touchdown_lon data) (airport data) rating text)
  | _, _ => None
  end.

(** The state once [save_landing_history] has tried to write [h]. *)
Definition persisted (h : list history_entry) (w : world) : world :=
  if disk_writable w then set_history_file (Json h) w
  else if disk_openable w then set_history_file Garbled w
  else w.

(** [save_landing_to_history] called on each of [ds] in turn. *)
Fixpoint record_all (ds : list landing_data) : M unit :=
  match ds with
  | [] => ret tt
  | d :: rest => bind (save_landing_to_history d) (fun _ => record_all rest)
  end.




Definition within_half_nm_b (lat lon : Q) (wp : waypoint) : bool :=
  if Rlt_dec (distanceNm (Q2R lat) (Q2R lon) (Q2R (wp_lat wp)) (Q2R (wp_lon wp))) 0.5
  then true else false.

Definition triggers (lat lon : Q) (wp : waypoint) : bool :=
  wp_pause wp && within_half_nm_b lat lon wp.

(** What one waypoint contributes to a proximity check. *)
Definition reaction (lat lon : Q) (wp : waypoint) : list event :=
  if triggers lat lon wp
  then [ae_event "PAUSE_SET" 1; log_signal (LogReached (wp_id wp)); waypoint_signal]
  else [].

Definition consumed (wp : waypoint) : waypoint :=
  mk_waypoint (wp_id wp) (wp_lat wp) (wp_lon wp) (wp_altitude wp) false.

Definition after_check (lat lon : Q) (wp : waypoint) : waypoint :=
  if triggers lat lon wp then consumed wp else wp.

(** The seven reads of a pass, in the order of the source. *)
Record telemetry : Type := mk_telemetry {
  t_lat : Q;
  t_lon : Q;
  t_alt : Q;
  t_vs : Q;
  t_on_ground : Q;
  t_g_force : Q;
  t_heading : Q
}.

Definition read_all (env : tick_env) : result telemetry :=
  (lat <~ aq_get env PLANE_LATITUDE ;;
   lon <~ aq_get env PLANE_LONGITUDE ;;
   alt <~ aq_get env PLANE_ALTITUDE ;;
   vs <~ aq_get env VERTICAL_SPEED ;;
   on_ground_ <~ aq_get env SIM_ON_GROUND ;;
   g_force <~ aq_get env G_FORCE ;;
   heading <~ aq_get env PLANE_HEADING_DEGREES_TRUE ;;
   Ok (mk_telemetry lat lon alt vs on_ground_ g_force heading))%result.

(** The on-ground reading of a pass, if its reads succeed. *)
Definition on_ground_reading (env : tick_env) : option Q :=
  match read_all env with
  | Ok t => Some (t_on_ground t)
  | Raise _ => None
  end.

(** A pass whose reads all succeed: the telemetry [t] with the on-ground
    reading [g], at clock [now]. *)
Definition env_of (t : telemetry) (now : Q) (stamp : string) (g : Q) : tick_env :=
  mk_tick_env (sample (t_lat t) (t_lon t) (t_alt t) (t_vs t) g (t_g_force t) (t_heading t))
    now stamp.

(** The detector's two bits, [was_airborne] and the latch
    [landing_data['on_ground']], over one pass with on-ground reading
    [reading]: the new bits, whether the airborne notice is logged and
    whether a touchdown is signalled. *)
Definition detector_step (reading : option Q) (airborne latch : bool)
  : bool * bool * (bool * bool) :=
  match reading with
  | None => (airborne, latch, (false, false))
  | Some g =>
      let takeoff := Qeq_bool g 0 && negb airborne in
      let airborne1 := airborne || takeoff in
      let latch1 := latch && negb takeoff in
      let fire := Qeq_bool g 1 && airborne1 && negb latch1 in
      (airborne1, latch1 || fire, (takeoff, fire))
  end.

Definition b2n (b : bool) : nat := if b then 1 else 0.

(** The passes (numbered from [n]) in which the two-bit detector fires. *)
Fixpoint detector_ticks (airborne latch : bool) (n : nat) (readings : list (option Q))
  : list nat :=
  match readings with
  | [] => []
  | r :: rest =>
      let '(airborne1, latch1, (_, fire)) := detector_step r airborne latch in
      (if fire then [n] else []) ++ detector_ticks airborne1 latch1 (S n) rest
  end.

(** [self.landing_data] once the touchdown block has filled it in, for a
    touchdown at [(lat, lon)] with vertical speed [vs] and g-force [g]. *)
Definition touchdown_data (env : tick_env) (lat lon vs g : Q) (w : world) : landing_data :=
  let d := put_timestamp (datetime_now env)
             (put_on_ground true (put_touchdown vs g lat lon (landing w))) in
  match approach_path w with
  | start_point :: _ :: _ =>
      put_avg_descent
        (total_vs (approach_path w)
           / inject_Z (Z.of_nat (List.length (approach_path w) - 1)))
        (put_approach_distance
           (distanceNm (Q2R (fst (fst start_point))) (Q2R (snd (fst start_point)))
              (Q2R lat) (Q2R lon)) d)
  | _ => d
  end.

(** The history entry of that touchdown. *)
Definition touchdown_entry (env : tick_env) (lat lon vs g : Q) (w : world) : history_entry :=
  mk_history_entry (Some (datetime_now env)) vs g (Some lat) (Some lon)
    (airport (landing w))
    (fst (fst (get_landing_rating vs g))) (snd (fst (get_landing_rating vs g))).

(** The pass in which a session's touchdown is signalled, by the spec's
    reading of the code: the first pass with on-ground reading 1 that comes
    after the first pass with on-ground reading 0; passes are numbered from
    [n] and a pass whose reads fail has no reading. *)
Fixpoint await_ground (n : nat) (readings : list (option Q)) : list nat :=
  match readings with
  | [] => []
  | Some g :: rest => if Qeq_bool g 1 then [n] else await_ground (S n) rest
  | None :: rest => await_ground (S n) rest
  end.

Fixpoint await_air (n : nat) (readings : list (option Q)) : list nat :=
  match readings with
  | [] => []
  | Some g :: rest =>
      if Qeq_bool g 0 then await_ground (S n) rest else await_air (S n) rest
  | None :: rest => await_air (S n) rest
  end.

(** *** Concrete inputs of the examples *)

(** The core fields after [__init__] when no history file exists. *)
Definition fresh_world : world :=
  mk_world [] false [] [] fresh_landing_data 0 Missing true true false 0 false.

(** The landing data of the [n]-th of a series of touchdowns, told apart
    by the touchdown speed [-n]. *)
Definition flight (n : nat) : landing_data :=
  put_touchdown (- inject_Z (Z.of_nat n)) 1 47 8 fresh_landing_data.

(** An aircraft on a descending approach at 2000 ft. *)
Definition on_approach : telemetry :=
  mk_telemetry 47 8 2000 (-500) 0 1.1 90.


(** A short flight: two passes on a descending approach, at 2000 ft and
    at 1500 ft, then a pass on the ground. *)
Definition landing_passes : list tick_env :=
  [env_of (mk_telemetry 47 8 2000 (-500) 0 1.1 90) 1 "2024-05-01 10:00:01" 0;
   env_of (mk_telemetry 47.01 8 1500 (-500) 0 1.1 90) 2 "2024-05-01 10:00:02" 0;
   env_of (mk_telemetry 47.02 8 1000 (-150) 0 1.2 90) 3 "2024-05-01 10:00:03" 1].

(** The state in which a session started at [now] enters its loop. *)
Definition session_start (now : Q) (w : world) : world :=
  set_recording_approach false
    (set_last_check_time now
       (set_was_airborne false (set_approach_path [] (set_monitoring true w)))).

(** The state the first two passes of [landing_passes] leave. *)
Definition before_touchdown : world :=
  mk_world [] true [] [(47, 8, 2000); (47.01, 8, 1500)]
    (put_on_ground false fresh_landing_data) 1500 Missing true true true 0 true.

(** The third pass of [landing_passes]. *)
Definition ground_pass : tick_env :=
  env_of (mk_telemetry 47.02 8 1000 (-150) 0 1.2 90) 3 "2024-05-01 10:00:03" 1.




(** A pass in which the read of the g-force raises. *)
Definition broken_pass : tick_env :=
  mk_tick_env
    (fun v => match v with
              | G_FORCE => Raise (SimConnectError G_FORCE)
              | _ => Ok 0%Q
              end)
    7 "2024-05-01 10:00:07".




Definition flight_entry (n : nat) : history_entry :=
  mk_history_entry None (- inject_Z (Z.of_nat n)) 1 (Some 47%Q) (Some 8%Q) "Unknown"
    (fst (fst (get_landing_rating (- inject_Z (Z.of_nat n)) 1)))
    (snd (fst (get_landing_rating (- inject_Z (Z.of_nat n)) 1))).

End Spec.

(** ** Route editing: [update_waypoint_altitude] *)

Module Route.
Import Monitor.

(** [wp['altitude'] = v]. *)
Definition set_altitude (v : Q) (wp : waypoint) : waypoint :=
  mk_waypoint (wp_id wp) (wp_lat wp) (wp_lon wp) v (wp_pause wp).

Fixpoint update_at (i : nat) (f : waypoint -> waypoint) (l : list waypoint)
  : list waypoint :=
  match l, i with
  | [], _ => []
  | wp :: rest, O => f wp :: rest
  | wp :: rest, S j => wp :: update_at j f rest
  end.

(** [l[i] = f(l[i])] for a Python index [i]: a negative index counts from
    the end, an index out of range raises [IndexError]. *)
Definition setitem (i : Z) (f : waypoint -> waypoint) (l : list waypoint)
  : result (list waypoint) :=
  let n := Z.of_nat (List.length l) in
  if ((0 <=? i) && (i <? n))%Z then Ok (update_at (Z.to_nat i) f l)
  else if ((- n <=? i) && (i <? 0))%Z then Ok (update_at (Z.to_nat (n + i)) f l)
  else Raise IndexError.

(** The slot [update_waypoint_altitude(idx, altitude)]. *)
Definition update_waypoint_altitude (idx : Z) (altitude : Q) : M unit :=
  bind (gets waypoints) (fun wps =>
  if ((0 <=? idx) && (idx <? Z.of_nat (List.length wps)))%Z then
    bind (lift (setitem idx (set_altitude altitude) wps)) (fun wps' =>
    modify (set_waypoints wps'))
  else ret tt).

(** A waypoint without its altitude. *)
Definition unlevelled (wp : waypoint) : string * Q * Q * bool :=
  (wp_id wp, wp_lat wp, wp_lon wp, wp_pause wp).

End Route.

(** ** The landing panel: [update_landing_display], [zoom_to_landing] *)

Module Display.
Import LandingRater Monitor.

(** What the two methods do to the window: the labels they set (with the
    numbers they format and the colour they style with), the map script,
    the line sent to the log, the information box. *)
Inductive widget : Type :=
| fpm_label (fpm : Q) (color : string)
| g_label (g : Q)
| location_label (lat lon : Q)
| time_label (stamp : string)
| approach_distance_label (d : R)
| avg_descent_label (v : Q)
| rating_labels (r : rating)
| zoomToLanding (lat lon : Q)
| log_line (text : string)
| information (text : string).

(** Python's truth value of a dict entry holding [None] or a number. *)
Definition truthy (v : option Q) : bool :=
  match v with
  | Some x => negb (Qeq_bool x 0)
  | None => false
  end.

Definition truthy_R (v : option R) : bool :=
  match v with
  | Some x => if Req_dec_T x 0 then false else true
  | None => false
  end.

Definition truthy_str (v : option string) : bool :=
  match v with
  | Some s => negb (String.eqb s "")
  | None => false
  end.

Definition opt_list {A : Type} (v : option A) (f : A -> list widget) : list widget :=
  match v with
  | Some x => f x
  | None => []
  end.

Definition fpm_color (fpm : Q) : string :=
  if Qltb (Qabs fpm) 100 then "#a6e3a1"
  else if Qltb (Qabs fpm) 300 then "#f9e2af"
  else "#f38ba8".

(** The slot [update_landing_display(data)]. *)
Definition update_landing_display (data : landing_data) : list widget :=
  let fpm := touchdown_fpm data in
  let g := touchdown_g data in
  opt_list fpm (fun x => [fpm_label x (fpm_color x)])
  ++ opt_list g (fun x => [g_label x])
  ++ (if truthy (touchdown_lat data) && truthy (touchdown_lon data)
      then opt_list (touchdown_lat data) (fun la =>
           opt_list (touchdown_lon data) (fun lo => [location_label la lo]))
      else [])
  ++ (if truthy_str (timestamp data)
      then opt_list (timestamp data) (fun s => [time_label s]) else [])
  ++ (if truthy_R (approach_distance data)
      then opt_list (approach_distance data) (fun d => [approach_distance_label d])
      else [])
  ++ (if truthy (avg_descent data)
      then opt_list (avg_descent data) (fun v => [avg_descent_label v]) else [])
  ++ (if truthy fpm && truthy g
      then opt_list fpm (fun x =>
           opt_list g (fun y => [rating_labels (get_landing_rating x y)]))
      else []).

(** [zoom_to_landing], on [self.landing_data]. *)
Definition zoom_to_landing (data : landing_data) : list widget :=
  if truthy (touchdown_lat data) && truthy (touchdown_lon data)
  then opt_list (touchdown_lat data) (fun la =>
       opt_list (touchdown_lon data) (fun lo =>
         [zoomToLanding la lo; log_line "🔍 Zoomed to landing location"]))
  else [information "No landing data available"].

Definition is_rating_label (x : widget) : bool :=
  match x with rating_labels _ => true | _ => false end.

End Display.

(** ** Further vocabulary *)

Module Observe.
Import GeoMath LandingRater Monitor Spec.

(** The waypoints whose pause flag is set. *)
Definition pauses (wps : list waypoint) : nat :=
  List.length (filter wp_pause wps).

(** A waypoint without its pause flag. *)
Definition fix_of (wp : waypoint) : string * Q * Q * Q :=
  (wp_id wp, wp_lat wp, wp_lon wp, wp_altitude wp).



(** A pass that does not read the aircraft off the ground: its reads
    fail, or its on-ground reading is not 0. *)
Definition grounded (env : tick_env) : bool :=
  match on_ground_reading env with
  | Some g => negb (Qeq_bool g 0)
  | None => true
  end.

(** The approach point a pass records, if any. *)
Definition approach_point (env : tick_env) (w : world) : list point :=
  match read_all env with
  | Ok t =>
      if (was_airborne w || Qeq_bool (t_on_ground t) 0)
         && Qltb (t_alt t) 3000 && Qltb (t_vs t) (-100)
         && Qeq_bool (t_on_ground t) 0
      then [(t_lat t, t_lon t, t_alt t)]
      else []
  | Raise _ => []
  end.

(** The fresh monitor with [self.monitoring] set. *)
Definition session_start_world : world := set_monitoring true fresh_world.

End Observe.

(** * Properties *)

Import GeoMath LandingRater Monitor Spec Route Display Observe.

(** ** GeoMath *)

Section GeoMathFacts.
Local Open Scope R_scope.

Lemma radians_minus (x y : R) : radians (x - y) = radians x - radians y.
Proof. unfold radians. ring. Qed.

Lemma sin_sq_bounds (x : R) : 0 <= sin x ^ 2 <= 1.
Proof.
  pose proof (sin2_cos2 x) as H. unfold Rsqr in H.
  split; nra.
Qed.

Lemma cos_product (m x : R) :
  cos (m - x) * cos (m + x) = cos m ^ 2 - sin x ^ 2.
Proof.
  rewrite cos_minus, cos_plus.
  pose proof (sin2_cos2 m) as Hm. pose proof (sin2_cos2 x) as Hx.
  unfold Rsqr in Hm, Hx. nra.
Qed.

Lemma haversine_a_split (lat1 lon1 lat2 lon2 : R) :
  let x := radians (lat2 - lat1) / 2 in
  let m := (radians lat1 + radians lat2) / 2 in
  let s := sin (radians (lon2 - lon1) / 2) ^ 2 in
  haversine_a lat1 lon1 lat2 lon2 = sin x ^ 2 * (1 - s) + cos m ^ 2 * s.
Proof.
  intros x m s. unfold haversine_a.
  replace (radians lat1) with (m - x) by (unfold m, x; rewrite radians_minus; field).
  replace (radians lat2) with (m + x) by (unfold m, x; rewrite radians_minus; field).
  rewrite cos_product. fold x s. ring.
Qed.

Lemma haversine_a_bounds (lat1 lon1 lat2 lon2 : R) :
  0 <= haversine_a lat1 lon1 lat2 lon2 <= 1.
Proof.
  rewrite haversine_a_split.
  set (x := radians (lat2 - lat1) / 2).
  set (m := (radians lat1 + radians lat2) / 2).
  set (s := sin (radians (lon2 - lon1) / 2) ^ 2).
  pose proof (sin_sq_bounds x) as Hx.
  pose proof (sin_sq_bounds (radians (lon2 - lon1) / 2)) as Hs. fold s in Hs.
  pose proof (sin2_cos2 m) as Hm. unfold Rsqr in Hm.
  pose proof (sin_sq_bounds m) as Hm'.
  split; nra.
Qed.

Lemma math_sqrt_ok (a : R) : 0 <= a -> math_sqrt a = Ok (sqrt a).
Proof.
  intros Ha. unfold math_sqrt. destruct (Rlt_dec a 0); [lra | reflexivity].
Qed.

Lemma math_asin_ok (s : R) : -1 <= s <= 1 -> math_asin s = Ok (asin s).
Proof.
  intros [H1 H2]. unfold math_asin.
  destruct (Rle_dec (-1) s); [| lra]. destruct (Rle_dec s 1); [reflexivity | lra].
Qed.

Lemma calculate_distance_value (lat1 lon1 lat2 lon2 : R) :
  calculate_distance lat1 lon1 lat2 lon2 = Ok (distanceNm lat1 lon1 lat2 lon2).
Proof.
  unfold calculate_distance, distanceNm.
  destruct (haversine_a_bounds lat1 lon1 lat2 lon2) as [H0 H1].
  rewrite math_sqrt_ok by exact H0. cbn [bindR].
  rewrite math_asin_ok; [reflexivity |].
  split.
  - pose proof (sqrt_pos (haversine_a lat1 lon1 lat2 lon2)). lra.
  - rewrite <- sqrt_1. apply sqrt_le_1_alt. exact H1.
Qed.

Lemma haversine_a_self (lat lon : R) : haversine_a lat lon lat lon = 0.
Proof.
  unfold haversine_a, radians.
  replace ((lat - lat) * (PI / 180) / 2) with 0 by field.
  replace ((lon - lon) * (PI / 180) / 2) with 0 by field.
  rewrite sin_0. ring.
Qed.

Lemma haversine_a_sym (lat1 lon1 lat2 lon2 : R) :
  haversine_a lat1 lon1 lat2 lon2 = haversine_a lat2 lon2 lat1 lon1.
Proof.
  unfold haversine_a, radians.
  replace ((lat1 - lat2) * (PI / 180) / 2) with (- ((lat2 - lat1) * (PI / 180) / 2)) by field.
  replace ((lon1 - lon2) * (PI / 180) / 2) with (- ((lon2 - lon1) * (PI / 180) / 2)) by field.
  rewrite !sin_neg. ring.
Qed.

Lemma distanceNm_self (lat lon : R) : distanceNm lat lon lat lon = 0.
Proof.
  unfold distanceNm. rewrite haversine_a_self, sqrt_0, asin_0. ring.
Qed.

Lemma distanceNm_sym (lat1 lon1 lat2 lon2 : R) :
  distanceNm lat1 lon1 lat2 lon2 = distanceNm lat2 lon2 lat1 lon1.
Proof.
  unfold distanceNm. rewrite (haversine_a_sym lat1 lon1 lat2 lon2). reflexivity.
Qed.

(** In exact arithmetic the formula of [calculate_distance] never leaves
    the domains of [math.sqrt] and [math.asin], the distance from a point to
    itself is 0, and the distance is symmetric in its two points. *)
Lemma calculate_distance_total_zero_symmetric (lat1 lon1 lat2 lon2 : R) :
  (exists d : R, calculate_distance lat1 lon1 lat2 lon2 = Ok d) /\
  calculate_distance lat1 lon1 lat1 lon1 = Ok 0 /\
  calculate_distance lat1 lon1 lat2 lon2 = calculate_distance lat2 lon2 lat1 lon1.
Proof.
  repeat split.
  - eexists. apply calculate_distance_value.
  - rewrite calculate_distance_value, distanceNm_self. reflexivity.
  - rewrite !calculate_distance_value, (distanceNm_sym lat1 lon1 lat2 lon2). reflexivity.
Qed.

End GeoMathFacts.

(** ** GeoMath in binary64 *)

Section Binary64Facts.
Import Binary64.
Local Open Scope float_scope.

(** C9: in binary64 [calculate_distance] is not total. From (64, 0) to
    (-64.00000001, 180), two points that are almost antipodal, the rounded
    haversine term is 1.0000000000000004, its square root
    1.0000000000000002, and [math.asin] raises [ValueError]; this holds with
    every C library whose [sin], [cos] and [pow] return at the four
    arguments reached the double nearest to the exact value, and whose
    [asin] returns NaN outside [-1, 1]. *)
#[warnings="-inexact-float"]
Theorem calculate_distance_math_domain_error (m : libm) :
  c_sin m (-0x1.1df46a2589c6fp+0) = -0x1.cc2ebbb5b7ac6p-1 ->
  c_pow m 0x1.cc2ebbb5b7ac6p-1 2 = 0x1.9d9bfd8e85824p-1 ->
  c_cos m 0x1.1df46a2529d39p+0 = 0x1.c0e45dabe05c9p-2 ->
  c_cos m (-0x1.1df46a25e9ba3p+0) = 0x1.c0e45da92e71bp-2 ->
  c_sin m 0x1.921fb54442d18p+0 = 1 ->
  c_asin m 0x1.0000000000001p+0 = nan ->
  Binary64.calculate_distance m 64 0 (-64.00000001) 180 = Raise ValueError.
Proof.
  intros Hs1 Hp1 Hc1 Hc2 Hs2 Has.
  lazy -[c_sin c_cos c_asin c_pow] in Hs1, Hp1, Hc1, Hc2, Hs2, Has.
  unfold Binary64.calculate_distance.
  lazy -[c_sin c_cos c_asin c_pow]. rewrite Hs1.
  lazy -[c_sin c_cos c_asin c_pow]. rewrite Hp1.
  lazy -[c_sin c_cos c_asin c_pow]. rewrite Hc1.
  lazy -[c_sin c_cos c_asin c_pow]. rewrite Hc2.
  lazy -[c_sin c_cos c_asin c_pow]. rewrite Hs2.
  lazy -[c_sin c_cos c_asin c_pow]. rewrite Has.
  reflexivity.
Qed.

(** With the values glibc returns. *)
#[warnings="-inexact-float"]
Lemma calculate_distance_math_domain_error_witness :
  Binary64.calculate_distance sampled_libm 64 0 (-64.00000001) 180 = Raise ValueError.
Proof.
  apply calculate_distance_math_domain_error; reflexivity.
Defined.

(** Away from the antipodes the evaluation returns the number CPython
    prints: from (64, 0) over the pole to (64, 180). *)
#[warnings="-inexact-float"]
Lemma calculate_distance_over_the_pole :
  Binary64.calculate_distance sampled_libm 64 0 64 180 = Ok 3122.1039580961747.
Proof. reflexivity. Qed.

(** *** Signs in the specification of binary64 *)

Lemma binary_round_aux_opp (s : bool) (mx ex : Z) (lx : location) :
  binary_round_aux prec emax (negb s) mx ex lx
    = SFopp (binary_round_aux prec emax s mx ex lx).
Proof.
  unfold binary_round_aux.
  destruct (shr_fexp prec emax mx ex lx) as [mrs' e'].
  destruct (shr_fexp prec emax _ e' loc_Exact) as [mrs'' e''].
  destruct (shr_m mrs'') as [| p | p]; [reflexivity | | reflexivity].
  destruct (Z.leb e'' (Z.sub emax prec)); reflexivity.
Qed.

Lemma binary_normalize_opp (z e : Z) :
  z <> 0%Z ->
  binary_normalize prec emax (- z) e false
    = SFopp (binary_normalize prec emax z e false).
Proof.
  intros Hz. destruct z as [| p | p]; [contradiction | |];
    cbn [Z.opp binary_normalize]; unfold binary_round;
    destruct (shl_align p e _) as [mz ez].
  - exact (binary_round_aux_opp false (Zpos mz) ez loc_Exact).
  - exact (binary_round_aux_opp true (Zpos mz) ez loc_Exact).
Qed.

Lemma float_abs_opp (x : float) : abs (- x) = abs x.
Proof.
  apply Prim2SF_inj. rewrite !abs_spec, opp_spec.
  destruct (Prim2SF x); reflexivity.
Qed.

Lemma float_mul_comm (x y : float) : x * y = y * x.
Proof.
  apply Prim2SF_inj. rewrite !mul_spec. unfold SF64mul.
  destruct (Prim2SF x) as [sx | sx | | sx mx ex], (Prim2SF y) as [sy | sy | | sy my ey];
    cbn [SFmul]; rewrite ?(xorb_comm sx sy); try reflexivity.
  rewrite (Pos.mul_comm mx my), (Z.add_comm ex ey). reflexivity.
Qed.

Lemma float_mul_opp_l (x y : float) : (- x) * y = - (x * y).
Proof.
  apply Prim2SF_inj. rewrite opp_spec, !mul_spec, opp_spec. unfold SF64mul.
  destruct (Prim2SF x) as [sx | sx | | sx mx ex], (Prim2SF y) as [sy | sy | | sy my ey];
    cbn [SFmul SFopp]; rewrite <- ?negb_xorb_l; try reflexivity.
  apply binary_round_aux_opp.
Qed.

Lemma float_div_opp_l (x y : float) : (- x) / y = - (x / y).
Proof.
  apply Prim2SF_inj. rewrite opp_spec, !div_spec, opp_spec. unfold SF64div.
  destruct (Prim2SF x) as [sx | sx | | sx mx ex], (Prim2SF y) as [sy | sy | | sy my ey];
    cbn [SFdiv SFopp]; rewrite <- ?negb_xorb_l; try reflexivity.
  destruct (SFdiv_core_binary prec emax (Zpos mx) ex (Zpos my) ey) as [[mz ez] lz].
  apply binary_round_aux_opp.
Qed.

(** [b - a] is the opposite of [a - b], unless both are [+0]. *)
Lemma float_sub_swap (a b : float) :
  b - a = - (a - b) \/ (a - b = 0 /\ b - a = 0).
Proof.
  assert (Hcase : Prim2SF (b - a) = SFopp (Prim2SF (a - b)) \/
                  (Prim2SF (a - b) = S754_zero false /\ Prim2SF (b - a) = S754_zero false)).
  { rewrite !sub_spec. unfold SF64sub.
    destruct (Prim2SF a) as [sx | sx | | sx mx ex], (Prim2SF b) as [sy | sy | | sy my ey];
      cbn [SFsub SFopp];
      try (left; reflexivity);
      try (destruct sx, sy; cbn; first [left; reflexivity | right; split; reflexivity]).
    rewrite (Z.min_comm ey ex).
    set (za := cond_Zopp sx _). set (zb := cond_Zopp sy _).
    destruct (Z.eq_dec (za - zb) 0) as [Hz | Hz].
    - right. replace (zb - za)%Z with 0%Z by lia. rewrite Hz. split; reflexivity.
    - left. replace (zb - za)%Z with (- (za - zb))%Z by lia.
      apply binary_normalize_opp. exact Hz. }
  destruct Hcase as [H | [H1 H2]].
  - left. apply Prim2SF_inj. rewrite opp_spec. exact H.
  - right. split; apply Prim2SF_inj; assumption.
Qed.

Lemma is_nan_spec (x : float) :
  is_nan x = match Prim2SF x with S754_nan => true | _ => false end.
Proof.
  unfold is_nan. rewrite FloatAxioms.eqb_spec. unfold SFeqb.
  destruct (Prim2SF x) as [s | s | | s m e]; cbn [SFcompare]; try reflexivity.
  - destruct s; reflexivity.
  - destruct s; rewrite Z.compare_refl, Pos.compare_cont_refl; reflexivity.
Qed.

Lemma is_infinity_spec (x : float) :
  is_infinity x = match Prim2SF x with S754_infinity _ => true | _ => false end.
Proof.
  unfold is_infinity. rewrite FloatAxioms.eqb_spec, abs_spec. unfold SFeqb.
  destruct (Prim2SF x) as [s | s | | s m e]; reflexivity.
Qed.

Lemma is_nan_opp (x : float) : is_nan (- x) = is_nan x.
Proof. rewrite !is_nan_spec, opp_spec. destruct (Prim2SF x); reflexivity. Qed.

Lemma is_infinity_opp (x : float) : is_infinity (- x) = is_infinity x.
Proof. unfold is_infinity. rewrite float_abs_opp. reflexivity. Qed.

Lemma is_finite_opp (x : float) : is_finite (- x) = is_finite x.
Proof. unfold is_finite. rewrite is_nan_opp, is_infinity_opp. reflexivity. Qed.

Lemma opp_nan (x : float) : is_nan x = true -> - x = x.
Proof.
  rewrite is_nan_spec. intros H. apply Prim2SF_inj. rewrite opp_spec.
  destruct (Prim2SF x); try discriminate. reflexivity.
Qed.

Lemma eqb_zero_opp (x : float) : (- x =? 0) = (x =? 0).
Proof.
  rewrite !FloatAxioms.eqb_spec, opp_spec. unfold SFeqb.
  destruct (Prim2SF x) as [s | s | | s m e]; cbn; try reflexivity; destruct s; reflexivity.
Qed.

(** *** The wrappers on opposite arguments *)

Lemma math_1_odd (func : float -> float) (x : float) :
  func (- x) = - func x ->
  math_1 func (- x)
    = match math_1 func x with Ok r => Ok (- r) | Raise e => Raise e end.
Proof.
  intros Hodd. unfold math_1. cbv zeta.
  rewrite Hodd, !is_nan_opp, is_infinity_opp, is_finite_opp.
  destruct (is_nan (func x) && negb (is_nan x)); [reflexivity |].
  destruct (is_infinity (func x) && is_finite x); reflexivity.
Qed.

Lemma math_1_raises (func : float -> float) (x : float) (e : exn) :
  math_1 func x = Raise e -> e = ValueError.
Proof.
  unfold math_1. cbv zeta.
  destruct (is_nan (func x) && negb (is_nan x)); [congruence |].
  destruct (is_infinity (func x) && is_finite x); congruence.
Qed.

Lemma float_pow2_even (m : libm) (s : float) : float_pow2 m (- s) = float_pow2 m s.
Proof.
  unfold float_pow2. rewrite is_nan_opp, is_infinity_opp, eqb_zero_opp, float_abs_opp.
  destruct (is_nan s) eqn:Hnan; [rewrite (opp_nan s Hnan); reflexivity | reflexivity].
Qed.

Lemma sin_squared_opp (m : libm) (x : float) :
  c_sin m (- x) = - c_sin m x ->
  sin_squared m (- x) = sin_squared m x.
Proof.
  intros Hodd. unfold sin_squared, math_sin.
  rewrite (math_1_odd (c_sin m) x Hodd).
  destruct (math_1 (c_sin m) x) as [r | e]; cbn [bindR]; [apply float_pow2_even | reflexivity].
Qed.

Lemma half_angle_opp (d : float) : radians (- d) / 2 = - (radians d / 2).
Proof. unfold radians. rewrite float_mul_opp_l, float_div_opp_l. reflexivity. Qed.

Lemma sin_squared_swap (m : libm) (a b : float) :
  c_sin m (- (radians (b - a) / 2)) = - c_sin m (radians (b - a) / 2) ->
  sin_squared m (radians (a - b) / 2) = sin_squared m (radians (b - a) / 2).
Proof.
  intros Hodd. destruct (float_sub_swap b a) as [Hopp | [H1 H2]].
  - rewrite Hopp, half_angle_opp. apply sin_squared_opp. exact Hodd.
  - rewrite H1, H2. reflexivity.
Qed.

(** X20: in binary64 [calculate_distance] is symmetric in its two
    points, in the number it returns and in the error it raises, as soon as
    the C library's [sin] is odd at the two half-angles of the pair. *)
Theorem calculate_distance_symmetric (m : libm) (lat1 lon1 lat2 lon2 : float) :
  c_sin m (- (radians (lat2 - lat1) / 2)) = - c_sin m (radians (lat2 - lat1) / 2) ->
  c_sin m (- (radians (lon2 - lon1) / 2)) = - c_sin m (radians (lon2 - lon1) / 2) ->
  Binary64.calculate_distance m lat2 lon2 lat1 lon1 = Binary64.calculate_distance m lat1 lon1 lat2 lon2.
Proof.
  intros Hlat Hlon. unfold calculate_distance. cbv zeta.
  rewrite (sin_squared_swap m lat1 lat2 Hlat), (sin_squared_swap m lon1 lon2 Hlon).
  destruct (sin_squared m (radians (lat2 - lat1) / 2)) as [p1 | e]; cbn [bindR];
    [| reflexivity].
  unfold math_cos.
  destruct (math_1 (c_cos m) (radians lat1)) as [c1 | e1] eqn:H1,
           (math_1 (c_cos m) (radians lat2)) as [c2 | e2] eqn:H2; cbn [bindR].
  - rewrite (float_mul_comm c2 c1). reflexivity.
  - reflexivity.
  - reflexivity.
  - rewrite (math_1_raises _ _ _ H1), (math_1_raises _ _ _ H2). reflexivity.
Qed.

(** From (64, 0) over the pole to (64, 180) and back. *)
Lemma calculate_distance_symmetric_witness :
  Binary64.calculate_distance sampled_libm 64 180 64 0 = Binary64.calculate_distance sampled_libm 64 0 64 180.
Proof. apply calculate_distance_symmetric; reflexivity. Defined.

Lemma is_finite_spec (x : float) :
  is_finite x
    = match Prim2SF x with S754_zero _ | S754_finite _ _ _ => true | _ => false end.
Proof.
  unfold is_finite. rewrite is_nan_spec, is_infinity_spec.
  destruct (Prim2SF x); reflexivity.
Qed.

Lemma float_sub_diag (x : float) : is_finite x = true -> x - x = 0.
Proof.
  rewrite is_finite_spec. intros Hfin. apply Prim2SF_inj. rewrite sub_spec.
  unfold SF64sub. change (Prim2SF 0) with (S754_zero false).
  destruct (Prim2SF x) as [s | s | | s m e]; try discriminate.
  - destruct s; reflexivity.
  - cbn [SFsub]. rewrite Z.sub_diag. reflexivity.
Qed.

Lemma binary_round_aux_sign (mx ex : Z) (lx : location) :
  match binary_round_aux prec emax false mx ex lx with
  | S754_zero s | S754_infinity s | S754_finite s _ _ => s = false
  | S754_nan => True
  end.
Proof.
  unfold binary_round_aux.
  destruct (shr_fexp prec emax mx ex lx) as [mrs' e'].
  destruct (shr_fexp prec emax _ e' loc_Exact) as [mrs'' e''].
  destruct (shr_m mrs'') as [| p | p]; [reflexivity | | exact I].
  destruct (Z.leb e'' (Z.sub emax prec)); reflexivity.
Qed.

(** A finite square is not negative, and its factor is finite. *)
Lemma finite_square (c : float) :
  is_finite (c * c) = true -> c * c * 0 = 0 /\ is_finite c = true.
Proof.
  rewrite !is_finite_spec. intros Hfin.
  assert (Hsq : (Prim2SF (c * c) = S754_zero false \/
                 exists m e, Prim2SF (c * c) = S754_finite false m e) /\
                match Prim2SF c with S754_zero _ | S754_finite _ _ _ => true | _ => false end
                = true).
  { rewrite mul_spec in *. unfold SF64mul in *.
    destruct (Prim2SF c) as [s | s | | s m e]; cbn [SFmul] in *; try discriminate.
    - rewrite xorb_nilpotent. split; [left |]; reflexivity.
    - rewrite xorb_nilpotent in *. split; [| reflexivity].
      pose proof (binary_round_aux_sign (Zpos (m * m)) (e + e) loc_Exact) as Hs.
      destruct (binary_round_aux prec emax false (Zpos (m * m)) (e + e) loc_Exact)
        as [s' | s' | | s' m' e']; try discriminate.
      + left. rewrite Hs. reflexivity.
      + right. exists m', e'. rewrite Hs. reflexivity. }
  destruct Hsq as [Hsq Hc]. split; [| exact Hc].
  apply Prim2SF_inj. rewrite mul_spec. unfold SF64mul.
  change (Prim2SF 0) with (S754_zero false).
  destruct Hsq as [-> | (m & e & ->)]; reflexivity.
Qed.

Lemma math_1_finite (func : float -> float) (x : float) :
  is_finite (func x) = true -> math_1 func x = Ok (func x).
Proof.
  unfold math_1, is_finite. cbv zeta. intros Hfin.
  apply negb_true_iff, orb_false_iff in Hfin. destruct Hfin as [-> ->]. reflexivity.
Qed.

(** X21: in binary64 the distance from a point with finite coordinates
    to itself is exactly 0, for every C library with [sin 0 = 0] and
    [asin 0 = 0] whose [cos] of the latitude has a finite square. *)
Theorem calculate_distance_same_point (m : libm) (lat lon : float) :
  is_finite lat = true ->
  is_finite lon = true ->
  c_sin m 0 = 0 ->
  c_asin m 0 = 0 ->
  is_finite (c_cos m (radians lat) * c_cos m (radians lat)) = true ->
  Binary64.calculate_distance m lat lon lat lon = Ok 0.
Proof.
  intros Hlat Hlon Hsin Hasin Hcos.
  destruct (finite_square _ Hcos) as [Hzero Hc].
  assert (Hsq : sin_squared m 0 = Ok 0).
  { unfold sin_squared, math_sin, math_1. cbv zeta. rewrite Hsin. reflexivity. }
  unfold calculate_distance. cbv zeta.
  rewrite (float_sub_diag lat Hlat), (float_sub_diag lon Hlon).
  change (radians 0 / 2) with 0. rewrite Hsq. cbn [bindR].
  unfold math_cos. rewrite (math_1_finite _ _ Hc). cbn [bindR].
  rewrite Hzero. change (0 + 0) with 0.
  change (math_sqrt 0) with (Ok 0 : result float). cbn [bindR].
  unfold math_asin, math_1. cbv zeta. rewrite Hasin. reflexivity.
Qed.

(** The point (64, 0). *)
Lemma calculate_distance_same_point_witness :
  Binary64.calculate_distance sampled_libm 64 0 64 0 = Ok 0.
Proof. apply calculate_distance_same_point; reflexivity. Defined.

End Binary64Facts.

(** ** LandingRater *)

Section LandingRaterFacts.
Local Open Scope Q_scope.

Lemma Qltb_spec (x y : Q) : reflect (x < y) (Qltb x y).
Proof.
  unfold Qltb. destruct (Qle_bool y x) eqn:E; cbn; constructor.
  - apply Qle_bool_iff in E. apply Qle_not_lt. exact E.
  - apply Qnot_le_lt. intros H. apply Qle_bool_iff in H. congruence.
Qed.

Lemma Qleb_spec (x y : Q) : reflect (x <= y) (Qle_bool x y).
Proof.
  destruct (Qle_bool x y) eqn:E; constructor.
  - apply Qle_bool_iff. exact E.
  - intros H. apply Qle_bool_iff in H. congruence.
Qed.

Ltac score_table tests :=
  lazymatch tests with
  | nil => idtac
  | cons (?x, ?y) ?rest =>
      destruct (Qltb_spec x y); [| score_table rest]
  end.

Lemma fpm_score_table (fpm : Q) : fpm_breakpoints (Qabs fpm) (fpm_score fpm).
Proof.
  unfold fpm_breakpoints, fpm_score.
  generalize (Qabs fpm) as a. intros a.
  score_table [(a, 100); (a, 200); (a, 300); (a, 400); (a, 600)];
    repeat split; intros; try reflexivity; lra.
Qed.

Lemma g_score_table (g : Q) : g_breakpoints g (g_score g).
Proof.
  unfold g_breakpoints, g_score.
  score_table [(g, 1.3); (g, 1.5); (g, 1.8); (g, 2.0); (g, 2.5)];
    repeat split; intros; try reflexivity; lra.
Qed.

Lemma rating_tier (fpm g : Q) :
  tier_of (combined_score fpm g) (get_landing_rating fpm g).
Proof.
  unfold tier_of, get_landing_rating.
  generalize (combined_score fpm g) as c. intros c.
  destruct (Qleb_spec 95 c); [| destruct (Qleb_spec 80 c);
    [| destruct (Qleb_spec 65 c); [| destruct (Qleb_spec 45 c)]]];
    repeat split; intros; try reflexivity; lra.
Qed.

(** Rounding does not touch the combined score: for each of the 36 pairs
    of scores its binary64 value is the exact value. *)
Lemma combined_score_binary64_exact :
  forallb (fun f => forallb (exact_on f) scores) scores = true.
Proof. vm_compute. reflexivity. Qed.

(** C2: for every vertical speed and g-force, [get_landing_rating] scores
    [|fpm|] and the g-force by the half-open breakpoint tables, combines the
    scores as 0.6 * fpm score + 0.4 * g score, and maps the combined score to
    the tier by the thresholds 95, 80, 65 and 45; [rate(50, 1.0)] has combined
    score 100 and is the five-star tier, [rate(350, 1.6)] has scores 50 and
    70, combined score 58, and is the two-star "Acceptable" tier. *)
Theorem get_landing_rating_table (fpm g : Q) :
  fpm_breakpoints (Qabs fpm) (fpm_score fpm) /\
  g_breakpoints g (g_score g) /\
  combined_score fpm g == 0.6 * fpm_score fpm + 0.4 * g_score g /\
  tier_of (combined_score fpm g) (get_landing_rating fpm g) /\
  (fpm_score 50 = 100 /\ g_score 1.0 = 100 /\ combined_score 50 1.0 == 100 /\
   get_landing_rating 50 1.0 = PERFECT /\ stars PERFECT = 5%nat) /\
  (fpm_score 350 = 50 /\ g_score 1.6 = 70 /\ combined_score 350 1.6 == 58 /\
   get_landing_rating 350 1.6 = ACCEPTABLE /\ stars ACCEPTABLE = 2%nat).
Proof.
  split; [apply fpm_score_table |].
  split; [apply g_score_table |].
  split; [unfold combined_score; ring |].
  split; [apply rating_tier |].
  split; repeat split; reflexivity.
Qed.
End LandingRaterFacts.

(** ** The monad *)

Section MonadFacts.
Context {A B : Type}.

Lemma run_eta (m : M A) (w : world) : m w = (outcome m w, exec m w, events m w).
Proof. unfold outcome, exec, events. destruct (m w) as [[r w'] evs]. reflexivity. Qed.

Lemma bind_ok (m : M A) (k : A -> M B) (w : world) (a : A) :
  outcome m w = Ok a ->
  bind m k w =
    (outcome (k a) (exec m w), exec (k a) (exec m w),
     events m w ++ events (k a) (exec m w)).
Proof.
  unfold outcome, exec, events, bind. destruct (m w) as [[r w1] ev1]. cbn.
  intros ->. destruct (k a w1) as [[r2 w2] ev2]. reflexivity.
Qed.

Lemma outcome_bind (m : M A) (k : A -> M B) (w : world) (a : A) :
  outcome m w = Ok a -> outcome (bind m k) w = outcome (k a) (exec m w).
Proof. intros H. unfold outcome at 1. rewrite bind_ok with (a := a) by exact H. reflexivity. Qed.

Lemma exec_bind (m : M A) (k : A -> M B) (w : world) (a : A) :
  outcome m w = Ok a -> exec (bind m k) w = exec (k a) (exec m w).
Proof. intros H. unfold exec at 1. rewrite bind_ok with (a := a) by exact H. reflexivity. Qed.

Lemma events_bind (m : M A) (k : A -> M B) (w : world) (a : A) :
  outcome m w = Ok a ->
  events (bind m k) w = events m w ++ events (k a) (exec m w).
Proof. intros H. unfold events at 1. rewrite bind_ok with (a := a) by exact H. reflexivity. Qed.

End MonadFacts.

(** ** HistoryStore *)

Section HistoryFacts.

(** C7: [load_landing_history] never raises: it returns a sequence for
    every state of the history file, the empty one when the file is absent
    and when it exists but cannot be opened or parsed; a non-empty result
    comes only from a file that parsed, and is its content. *)
Theorem load_landing_history_total (f : file) :
  (exists h, load_landing_history f = Ok h) /\
  load_landing_history Missing = Ok [] /\
  load_landing_history Garbled = Ok [] /\
  (forall h, load_landing_history f = Ok h -> h <> [] -> f = Json h).
Proof.
  repeat split; try reflexivity.
  - destruct f; cbn; eauto.
  - intros h Hload Hne. destruct f; cbn in Hload; inversion Hload; subst;
      [contradiction | contradiction | reflexivity].
Qed.

Lemma save_landing_history_run (w : world) :
  save_landing_history w =
    (Ok tt, persisted (landing_history w) w,
     if disk_writable w then [] else [log_signal LogSaveFailed]).
Proof.
  unfold save_landing_history, open_w, json_dump, persisted, try_except, bind, gets,
    modify, raise, emit.
  destruct (disk_writable w) eqn:Hw, (disk_openable w) eqn:Ho;
    cbn [orb disk_writable set_history_file]; rewrite ?Hw; reflexivity.
Qed.

Lemma firstn_100_short {X : Type} (l : list X) :
  (100 <? List.length l)%nat = false -> firstn 100 l = l.
Proof. intros H. apply Nat.ltb_ge in H. apply firstn_all2. exact H. Qed.

Lemma save_landing_to_history_run (d : landing_data) (e : history_entry) (w : world) :
  entry_of d = Some e ->
  save_landing_to_history d w =
    (Ok tt,
     persisted (firstn 100 (e :: landing_history w))
       (set_landing_history (firstn 100 (e :: landing_history w)) w),
     (if disk_writable w then [] else [log_signal LogSaveFailed])
       ++ [update_history_table (firstn 100 (e :: landing_history w))]).
Proof.
  unfold entry_of, save_landing_to_history.
  destruct (touchdown_fpm d) as [fpm |]; [| discriminate].
  destruct (touchdown_g d) as [g |]; [| discriminate].
  unfold bind at 1 2. unfold number, ret.
  destruct (get_landing_rating fpm g) as [[rating text] colour].
  intros He. inversion He as [He']. clear He.
  set (e0 := mk_history_entry _ _ _ _ _ _ _ _).
  unfold bind, modify, gets, when.
  cbn [landing_history set_landing_history].
  destruct (100 <? List.length (e0 :: landing_history w))%nat eqn:Hlen.
  - rewrite save_landing_history_run. unfold emit, persisted. cbn.
    destruct (disk_writable w), (disk_openable w); reflexivity.
  - rewrite (firstn_100_short _ Hlen).
    unfold ret. rewrite save_landing_history_run. unfold emit, persisted. cbn.
    destruct (disk_writable w), (disk_openable w); reflexivity.
Qed.

Lemma save_landing_to_history_fails (d : landing_data) (w : world) :
  entry_of d = None -> exec (save_landing_to_history d) w = w.
Proof.
  unfold entry_of, save_landing_to_history, exec.
  destruct (touchdown_fpm d) as [fpm |]; [| reflexivity].
  destruct (touchdown_g d) as [g |]; [| reflexivity].
  destruct (get_landing_rating fpm g) as [[rating text] colour]. discriminate.
Qed.

Lemma landing_history_persisted (h : list history_entry) (w : world) :
  landing_history (persisted h w) = landing_history w.
Proof. unfold persisted. destruct (disk_writable w), (disk_openable w); reflexivity. Qed.

Lemma record_inserts (d : landing_data) (e : history_entry) (w : world) :
  entry_of d = Some e ->
  outcome (save_landing_to_history d) w = Ok tt /\
  landing_history (exec (save_landing_to_history d) w)
    = firstn 100 (e :: landing_history w).
Proof.
  intros He. unfold outcome, exec.
  rewrite (save_landing_to_history_run d e w He). cbn [fst snd].
  split; [reflexivity |]. apply landing_history_persisted.
Qed.

Lemma firstn_app_firstn {X : Type} (n : nat) (a b : list X) :
  firstn n (a ++ firstn n b) = firstn n (a ++ b).
Proof.
  rewrite !firstn_app, firstn_firstn.
  replace (Nat.min (n - List.length a) n) with (n - List.length a)%nat by lia.
  reflexivity.
Qed.

Lemma record_all_history (ds : list landing_data) (es : list history_entry) :
  Forall2 (fun d e => entry_of d = Some e) ds es ->
  forall w : world,
    landing_history (exec (record_all ds) w)
      = match es with
        | [] => landing_history w
        | _ :: _ => firstn 100 (rev es ++ landing_history w)
        end.
Proof.
  induction 1 as [| d e ds es He Hrest IH]; intros w.
  - reflexivity.
  - destruct (record_inserts d e w He) as [Hok Hh].
    cbn [record_all]. rewrite exec_bind with (a := tt) by exact Hok.
    rewrite IH, Hh. destruct es as [| e' es'].
    + reflexivity.
    + cbn [rev]. rewrite firstn_app_firstn, <- !app_assoc. reflexivity.
Qed.

Lemma record_keeps_capacity (d : landing_data) (w : world) :
  (List.length (landing_history w) <= 100)%nat ->
  (List.length (landing_history (exec (save_landing_to_history d) w)) <= 100)%nat.
Proof.
  intros Hw. destruct (entry_of d) as [e |] eqn:He.
  - destruct (record_inserts d e w He) as [_ ->]. rewrite length_firstn. lia.
  - rewrite save_landing_to_history_fails by exact He. exact Hw.
Qed.

Lemma clear_history_run (reply_yes : bool) (w : world) :
  landing_history (exec (clear_history reply_yes) w)
    = if reply_yes then [] else landing_history w.
Proof.
  unfold clear_history, when, exec. destruct reply_yes; [| reflexivity].
  unfold bind, modify. rewrite save_landing_history_run.
  unfold gets, emit, persisted. cbn.
  destruct (disk_writable w), (disk_openable w); reflexivity.
Qed.

(** C3: a record operation inserts the new entry at index 0 and keeps the
    first 100 elements, older entries after it in their order; from any
    starting history, 101 record operations in sequence leave exactly the
    100 most recent entries, newest first; a history of at most 100
    entries stays so under a record operation and under clear. *)
Theorem history_capacity_and_order
    (w : world) (ds : list landing_data) (es : list history_entry) :
  Forall2 (fun d e => entry_of d = Some e) ds es ->
  (forall d e, entry_of d = Some e ->
     landing_history (exec (save_landing_to_history d) w)
       = firstn 100 (e :: landing_history w) /\
     landing_history (exec (save_landing_to_history d) w)
       = e :: firstn 99 (landing_history w)) /\
  (List.length ds = 101%nat ->
     landing_history (exec (record_all ds) w) = firstn 100 (rev es) /\
     List.length (landing_history (exec (record_all ds) w)) = 100%nat) /\
  (forall d, (List.length (landing_history w) <= 100)%nat ->
     (List.length (landing_history (exec (save_landing_to_history d) w)) <= 100)%nat) /\
  (forall reply_yes, (List.length (landing_history w) <= 100)%nat ->
     (List.length (landing_history (exec (clear_history reply_yes) w)) <= 100)%nat).
Proof.
  intros Hes. split; [| split; [| split]].
  - intros d e He. destruct (record_inserts d e w He) as [_ ->].
    split; reflexivity.
  - intros Hlen.
    assert (Hes_len : List.length es = 101%nat)
      by (rewrite <- (Forall2_length Hes); exact Hlen).
    rewrite (record_all_history ds es Hes w).
    destruct es as [| e es']; [discriminate |].
    assert (Hcut : firstn 100 (rev (e :: es') ++ landing_history w)
                   = firstn 100 (rev (e :: es'))).
    { rewrite firstn_app, length_rev, Hes_len. cbn [Nat.sub firstn].
      apply app_nil_r. }
    rewrite Hcut. split; [reflexivity |].
    rewrite length_firstn, length_rev, Hes_len. reflexivity.
  - intros d. apply record_keeps_capacity.
  - intros reply_yes Hw. rewrite clear_history_run.
    destruct reply_yes; [cbn; lia | exact Hw].
Qed.

Lemma flights_entries (ns : list nat) :
  Forall2 (fun d e => entry_of d = Some e) (map flight ns) (map flight_entry ns).
Proof.
  induction ns as [| n ns IH]; cbn [map]; constructor; [| exact IH].
  unfold entry_of, flight, flight_entry. cbn [put_touchdown touchdown_fpm touchdown_g].
  destruct (get_landing_rating (- inject_Z (Z.of_nat n)) 1) as [[rating text] colour].
  reflexivity.
Qed.

(** 101 landings recorded into a fresh store: the store holds landings
    101 down to 2. *)
Lemma history_capacity_and_order_witness :
  landing_history (exec (record_all (map flight (seq 1 101))) fresh_world)
    = map flight_entry (rev (seq 2 100)) /\
  List.length (landing_history (exec (record_all (map flight (seq 1 101))) fresh_world))
    = 100%nat.
Proof.
  destruct (history_capacity_and_order fresh_world _ _ (flights_entries (seq 1 101)))
    as [_ [H101 _]].
  destruct (H101 eq_refl) as [Hh Hl].
  split; [| exact Hl].
  rewrite Hh. rewrite <- map_rev. reflexivity.
Defined.

End HistoryFacts.

(** ** The passes of the polling loop *)

Section PassFacts.

Lemma check_takeoff_run (g : Q) (w : world) :
  check_takeoff g w =
    if Qeq_bool g 0 && negb (was_airborne w)
    then (Ok tt, set_landing (put_on_ground false (landing w)) (set_was_airborne true w),
          [log_signal LogAirborne])
    else (Ok tt, w, []).
Proof.
  unfold check_takeoff, bind, gets, when. cbn.
  destruct (Qeq_bool g 0 && negb (was_airborne w)); reflexivity.
Qed.

Lemma record_approach_run (lat lon alt vs g : Q) (w : world) :
  record_approach lat lon alt vs g w =
    if was_airborne w && Qltb alt 3000 && Qltb vs (-100) && Qeq_bool g 0
    then (Ok tt,
          set_approach_path (approach_path w ++ [(lat, lon, alt)])
            (if recording_approach w then w else set_recording_approach true w),
          (if recording_approach w then [] else [log_signal LogRecordingApproach])
            ++ [approach_signal lat lon alt])
    else (Ok tt, w, []).
Proof.
  unfold record_approach, bind, gets, when. cbn.
  destruct (was_airborne w && Qltb alt 3000 && Qltb vs (-100) && Qeq_bool g 0);
    [| reflexivity].
  destruct (recording_approach w); reflexivity.
Qed.

Lemma touchdown_data_entry (env : tick_env) (lat lon vs g : Q) (w : world) :
  entry_of (touchdown_data env lat lon vs g w)
    = Some (touchdown_entry env lat lon vs g w).
Proof.
  unfold entry_of, touchdown_data, touchdown_entry.
  destruct (approach_path w) as [| p0 [| p1 rest]]; cbn;
    destruct (get_landing_rating vs g) as [[rating text] colour]; reflexivity.
Qed.

Lemma approach_stats_run (lat lon : Q) (w : world) :
  approach_stats lat lon w =
    (Ok tt,
     match approach_path w with
     | start_point :: _ :: _ =>
         set_landing
           (put_avg_descent
              (total_vs (approach_path w)
                 / inject_Z (Z.of_nat (List.length (approach_path w) - 1)))
              (put_approach_distance
                 (distanceNm (Q2R (fst (fst start_point))) (Q2R (snd (fst start_point)))
                    (Q2R lat) (Q2R lon)) (landing w))) w
     | _ => w
     end, []).
Proof.
  unfold approach_stats, bind, gets, when.
  destruct (approach_path w) as [| p0 [| p1 rest]] eqn:Hpath; try reflexivity.
  cbn [List.length Nat.ltb Nat.leb]. unfold lift.
  rewrite calculate_distance_value. unfold modify. cbn. reflexivity.
Qed.

Lemma touchdown_run (env : tick_env) (lat lon vs g : Q) (w : world) :
  let d := touchdown_data env lat lon vs g w in
  let h := firstn 100 (touchdown_entry env lat lon vs g w :: landing_history w) in
  touchdown env lat lon vs g w =
    (Ok tt,
     set_recording_approach false (persisted h (set_landing_history h (set_landing d w))),
     (if disk_writable w then [] else [log_signal LogSaveFailed])
       ++ [update_history_table h; landing_signal d; log_signal (LogLanding vs g);
           runJavaScript (addLandingMarker lat lon vs g)]).
Proof.
  intros d h. unfold touchdown.
  unfold bind at 1 2 3. unfold modify at 1 2 3. cbn [landing set_landing].
  unfold bind at 1. rewrite approach_stats_run.
  unfold bind at 1. unfold gets at 1.
  set (w1 := match approach_path _ with [] => _ | _ => _ end).
  assert (Hd : landing w1 = d).
  { unfold w1, d, touchdown_data. cbn [approach_path set_landing landing].
    destruct (approach_path w) as [| p0 [| p1 rest]]; reflexivity. }
  assert (Hh : landing_history w1 = landing_history w).
  { unfold w1. cbn [approach_path set_landing].
    destruct (approach_path w) as [| p0 [| p1 rest]]; reflexivity. }
  assert (Hdisk : disk_writable w1 = disk_writable w).
  { unfold w1. cbn [approach_path set_landing].
    destruct (approach_path w) as [| p0 [| p1 rest]]; reflexivity. }
  assert (Hw1 : set_landing d w = w1).
  { unfold w1, d, touchdown_data. cbn [approach_path set_landing landing].
    destruct (approach_path w) as [| p0 [| p1 rest]]; reflexivity. }
  unfold bind at 1.
  rewrite (save_landing_to_history_run (landing w1) (touchdown_entry env lat lon vs g w) w1)
    by (rewrite Hd; apply touchdown_data_entry).
  rewrite Hh, Hdisk. fold h.
  unfold bind, gets, emit, modify, persisted. cbn. rewrite <- Hw1.
  cbn [disk_writable disk_openable set_landing set_landing_history].
  destruct (disk_writable w), (disk_openable w); reflexivity.
Qed.

Lemma clear_pause_at (pre : list waypoint) (wp : waypoint) (rest : list waypoint) :
  clear_pause (List.length pre) (pre ++ wp :: rest) = pre ++ consumed wp :: rest.
Proof.
  induction pre as [| p pre IH]; cbn.
  - reflexivity.
  - rewrite IH. reflexivity.
Qed.

Lemma set_waypoints_same (w : world) : set_waypoints (waypoints w) w = w.
Proof. destruct w. reflexivity. Qed.

Lemma for_waypoints_run (lat lon : Q) (wps : list waypoint) :
  forall (pre : list waypoint) (w : world),
    waypoints w = pre ++ wps ->
    for_waypoints lat lon (List.length pre) wps w =
      (Ok tt, set_waypoints (pre ++ map (after_check lat lon) wps) w,
       flat_map (reaction lat lon) wps).
Proof.
  induction wps as [| wp rest IH]; intros pre w Hw.
  - cbn. rewrite <- Hw, set_waypoints_same. reflexivity.
  - cbn [for_waypoints map flat_map].
    unfold after_check at 1, reaction at 1, triggers, within_half_nm_b.
    unfold bind at 1. unfold when at 1.
    destruct (wp_pause wp); cbn [andb].
    + unfold bind at 1, lift at 1. rewrite calculate_distance_value.
      destruct (Rlt_dec _ _) as [Hnear | Hfar].
      * unfold bind, emit, modify. cbn [app].
        rewrite Hw, clear_pause_at.
        specialize (IH (pre ++ [consumed wp])
                      (set_waypoints (pre ++ consumed wp :: rest) w)).
        rewrite length_app, Nat.add_1_r in IH. rewrite IH.
        -- cbn. rewrite <- app_assoc. reflexivity.
        -- cbn. rewrite <- app_assoc. reflexivity.
      * unfold ret. specialize (IH (pre ++ [wp]) w).
        rewrite length_app, Nat.add_1_r in IH. rewrite IH.
        -- cbn. rewrite <- app_assoc. reflexivity.
        -- rewrite Hw, <- app_assoc. reflexivity.
    + unfold ret. specialize (IH (pre ++ [wp]) w).
      rewrite length_app, Nat.add_1_r in IH. rewrite IH.
      * cbn. rewrite <- app_assoc. reflexivity.
      * rewrite Hw, <- app_assoc. reflexivity.
Qed.

Lemma check_waypoints_run (env : tick_env) (lat lon : Q) (w : world) :
  check_waypoints env lat lon w =
    if Qltb 2 (time_time env - last_check_time w)
    then (Ok tt,
          set_last_check_time (time_time env)
            (set_waypoints (map (after_check lat lon) (waypoints w)) w),
          flat_map (reaction lat lon) (waypoints w))
    else (Ok tt, w, []).
Proof.
  unfold check_waypoints, bind at 1, gets at 1, when.
  destruct (Qltb 2 (time_time env - last_check_time w)); [| reflexivity].
  unfold bind at 1, gets at 1. unfold bind at 1.
  pose proof (for_waypoints_run lat lon (waypoints w) [] w eq_refl) as Hrun.
  change (List.length (@nil waypoint)) with O in Hrun. rewrite Hrun.
  unfold modify. cbn [app]. rewrite app_nil_r. reflexivity.
Qed.

Lemma check_landing_run (env : tick_env) (lat lon vs g_force g : Q) (w : world) :
  check_landing env lat lon vs g_force g w =
    if Qeq_bool g 1 && was_airborne w && negb (on_ground (landing w))
    then touchdown env lat lon vs g_force w
    else (Ok tt, w, []).
Proof.
  unfold check_landing, bind, gets, when. cbv beta iota.
  destruct (Qeq_bool g 1 && was_airborne w && negb (on_ground (landing w))).
  - destruct (touchdown env lat lon vs g_force w) as [[r w'] evs]. reflexivity.
  - reflexivity.
Qed.

Lemma bind_lift_ok {A B : Type} (a : A) (k : A -> M B) (w : world) :
  bind (lift (Ok a)) k w = k a w.
Proof. unfold bind, lift. destruct (k a w) as [[r w'] evs]. reflexivity. Qed.

(** The seven reads come first: the body is [process] on what they
    return, or stops at the first read that raises, before any effect. *)
Lemma loop_body_reads (env : tick_env) (w : world) :
  loop_body env w =
    match read_all env with
    | Ok t =>
        process env (t_lat t) (t_lon t) (t_alt t) (t_vs t) (t_on_ground t)
          (t_g_force t) (t_heading t) w
    | Raise e => (Raise e, w, [])
    end.
Proof.
  unfold loop_body, read_all.
  destruct (aq_get env PLANE_LATITUDE) as [lat | e];
    [rewrite bind_lift_ok | reflexivity].
  destruct (aq_get env PLANE_LONGITUDE) as [lon | e];
    [rewrite bind_lift_ok | reflexivity].
  destruct (aq_get env PLANE_ALTITUDE) as [alt | e];
    [rewrite bind_lift_ok | reflexivity].
  destruct (aq_get env VERTICAL_SPEED) as [vs | e];
    [rewrite bind_lift_ok | reflexivity].
  destruct (aq_get env SIM_ON_GROUND) as [g | e];
    [rewrite bind_lift_ok | reflexivity].
  destruct (aq_get env G_FORCE) as [g_force | e];
    [rewrite bind_lift_ok | reflexivity].
  destruct (aq_get env PLANE_HEADING_DEGREES_TRUE) as [heading | e];
    [rewrite bind_lift_ok | reflexivity].
  reflexivity.
Qed.

Ltac split_ifs :=
  repeat match goal with
         | |- context [if ?c then _ else _] => destruct c
         end.

Lemma check_takeoff_ok (g : Q) (w : world) : outcome (check_takeoff g) w = Ok tt.
Proof. unfold outcome. rewrite check_takeoff_run. split_ifs; reflexivity. Qed.

Lemma record_approach_ok (lat lon alt vs g : Q) (w : world) :
  outcome (record_approach lat lon alt vs g) w = Ok tt.
Proof. unfold outcome. rewrite record_approach_run. split_ifs; reflexivity. Qed.

Lemma check_landing_ok (env : tick_env) (lat lon vs g_force g : Q) (w : world) :
  outcome (check_landing env lat lon vs g_force g) w = Ok tt.
Proof.
  unfold outcome. rewrite check_landing_run.
  destruct (_ && _); [rewrite touchdown_run |]; reflexivity.
Qed.

Lemma check_waypoints_ok (env : tick_env) (lat lon : Q) (w : world) :
  outcome (check_waypoints env lat lon) w = Ok tt.
Proof. unfold outcome. rewrite check_waypoints_run. split_ifs; reflexivity. Qed.

(** A pass whose reads succeed runs its four blocks in order, raises
    nothing and ends with the one-second sleep. *)
Lemma process_run (env : tick_env) (lat lon alt vs g g_force heading : Q) (w : world) :
  let w1 := exec (check_takeoff g) w in
  let w2 := exec (record_approach lat lon alt vs g) w1 in
  let w3 := exec (check_landing env lat lon vs g_force g) w2 in
  let w4 := exec (check_waypoints env lat lon) w3 in
  process env lat lon alt vs g g_force heading w =
    (Ok tt, set_last_altitude alt w4,
     position_signal lat lon heading alt
       :: events (check_takeoff g) w
       ++ events (record_approach lat lon alt vs g) w1
       ++ events (check_landing env lat lon vs g_force g) w2
       ++ events (check_waypoints env lat lon) w3
       ++ [sleep 1]).
Proof.
  intros w1 w2 w3 w4. unfold process.
  unfold bind at 1, emit at 1.
  rewrite bind_ok with (a := tt) by apply check_takeoff_ok. fold w1.
  rewrite outcome_bind with (a := tt) by apply record_approach_ok.
  rewrite exec_bind with (a := tt) by apply record_approach_ok.
  rewrite events_bind with (a := tt) by apply record_approach_ok. fold w2.
  rewrite outcome_bind with (a := tt) by apply check_landing_ok.
  rewrite exec_bind with (a := tt) by apply check_landing_ok.
  rewrite events_bind with (a := tt) by apply check_landing_ok. fold w3.
  rewrite outcome_bind with (a := tt) by apply check_waypoints_ok.
  rewrite exec_bind with (a := tt) by apply check_waypoints_ok.
  rewrite events_bind with (a := tt) by apply check_waypoints_ok. fold w4.
  reflexivity.
Qed.

Lemma iteration_run (env : tick_env) (w : world) :
  iteration env w =
    match read_all env with
    | Ok t =>
        process env (t_lat t) (t_lon t) (t_alt t) (t_vs t) (t_on_ground t)
          (t_g_force t) (t_heading t) w
    | Raise e => (Ok tt, w, [log_signal (LogMonitoringError e); sleep 2])
    end.
Proof.
  unfold iteration, try_except. rewrite loop_body_reads.
  destruct (read_all env) as [t | e]; [| reflexivity].
  rewrite process_run. reflexivity.
Qed.

Lemma iteration_ok (env : tick_env) (w : world) : outcome (iteration env) w = Ok tt.
Proof.
  unfold outcome. rewrite iteration_run.
  destruct (read_all env) as [t | e]; [rewrite process_run |]; reflexivity.
Qed.

Lemma read_all_fails (env : tick_env) (v : simvar) (e : exn) :
  aq_get env v = Raise e -> exists e', read_all env = Raise e'.
Proof.
  intros Hv. unfold read_all.
  destruct (aq_get env PLANE_LATITUDE) as [lat | e1] eqn:E1; [| cbn; eauto].
  destruct (aq_get env PLANE_LONGITUDE) as [lon | e2] eqn:E2; [| cbn; eauto].
  destruct (aq_get env PLANE_ALTITUDE) as [alt | e3] eqn:E3; [| cbn; eauto].
  destruct (aq_get env VERTICAL_SPEED) as [vs | e4] eqn:E4; [| cbn; eauto].
  destruct (aq_get env SIM_ON_GROUND) as [g | e5] eqn:E5; [| cbn; eauto].
  destruct (aq_get env G_FORCE) as [g_force | e6] eqn:E6; [| cbn; eauto].
  destruct (aq_get env PLANE_HEADING_DEGREES_TRUE) as [heading | e7] eqn:E7;
    [| cbn; eauto].
  destruct v; congruence.
Qed.

(** *** What a pass leaves in the fields the detector depends on *)

Lemma persisted_fields (h : list history_entry) (w : world) :
  was_airborne (persisted h w) = was_airborne w /\
  landing (persisted h w) = landing w /\
  monitoring (persisted h w) = monitoring w /\
  approach_path (persisted h w) = approach_path w /\
  waypoints (persisted h w) = waypoints w /\
  last_check_time (persisted h w) = last_check_time w.
Proof. unfold persisted. destruct (disk_writable w), (disk_openable w); repeat split. Qed.

Lemma check_takeoff_fields (g : Q) (w : world) :
  let takeoff := Qeq_bool g 0 && negb (was_airborne w) in
  let w1 := exec (check_takeoff g) w in
  was_airborne w1 = was_airborne w || takeoff /\
  on_ground (landing w1) = on_ground (landing w) && negb takeoff /\
  monitoring w1 = monitoring w /\
  approach_path w1 = approach_path w /\
  events (check_takeoff g) w = (if takeoff then [log_signal LogAirborne] else []).
Proof.
  intros takeoff w1. unfold w1, exec, events. rewrite check_takeoff_run.
  fold takeoff. destruct takeoff; cbn.
  - rewrite orb_true_r, andb_false_r. repeat split.
  - rewrite orb_false_r, andb_true_r. repeat split.
Qed.

Lemma record_approach_fields (lat lon alt vs g : Q) (w : world) :
  let w2 := exec (record_approach lat lon alt vs g) w in
  was_airborne w2 = was_airborne w /\
  landing w2 = landing w /\
  monitoring w2 = monitoring w /\
  (Qeq_bool g 0 = false -> approach_path w2 = approach_path w).
Proof.
  intros w2. unfold w2, exec. rewrite record_approach_run.
  destruct (Qeq_bool g 0); rewrite ?andb_false_r;
    split_ifs; cbn; repeat split; intros; congruence.
Qed.

Lemma check_landing_fields (env : tick_env) (lat lon vs g_force g : Q) (w : world) :
  let fire := Qeq_bool g 1 && was_airborne w && negb (on_ground (landing w)) in
  let w3 := exec (check_landing env lat lon vs g_force g) w in
  was_airborne w3 = was_airborne w /\
  on_ground (landing w3) = on_ground (landing w) || fire /\
  monitoring w3 = monitoring w /\
  approach_path w3 = approach_path w /\
  landing w3 = (if fire then touchdown_data env lat lon vs g_force w else landing w).
Proof.
  intros fire w3. unfold w3, exec. rewrite check_landing_run. fold fire.
  destruct fire.
  - rewrite touchdown_run. cbn [fst snd].
    set (h := firstn 100 _).
    destruct (persisted_fields h
                (set_landing_history h
                   (set_landing (touchdown_data env lat lon vs g_force w) w)))
      as (Ha & Hl & Hm & Hp & _).
    cbn [was_airborne landing monitoring approach_path set_recording_approach].
    rewrite Ha, Hl, Hm, Hp, orb_true_r. cbn.
    repeat split.
    unfold touchdown_data. destruct (approach_path w) as [| p0 [| p1 rest]]; reflexivity.
  - cbn. rewrite orb_false_r. repeat split.
Qed.

Lemma check_waypoints_fields (env : tick_env) (lat lon : Q) (w : world) :
  let w4 := exec (check_waypoints env lat lon) w in
  was_airborne w4 = was_airborne w /\
  landing w4 = landing w /\
  monitoring w4 = monitoring w /\
  approach_path w4 = approach_path w.
Proof.
  intros w4. unfold w4, exec. rewrite check_waypoints_run.
  split_ifs; cbn; repeat split.
Qed.

End PassFacts.

(** ** The detector's two bits *)

Section DetectorFacts.

Lemma count_app (p : event -> bool) (a b : list event) :
  count p (a ++ b) = (count p a + count p b)%nat.
Proof. unfold count. rewrite filter_app, length_app. reflexivity. Qed.

Lemma ticks_app (a b : list event) :
  forall n : nat,
    touchdown_ticks_from n (a ++ b)
      = touchdown_ticks_from n a ++ touchdown_ticks_from (n + count is_sleep a) b.
Proof.
  induction a as [| e a IH]; intros n.
  - cbn. rewrite Nat.add_0_r. reflexivity.
  - destruct e; cbn [app touchdown_ticks_from]; rewrite IH;
      try reflexivity.
    unfold count. cbn. rewrite Nat.add_succ_r. reflexivity.
Qed.

Lemma reaction_unobserved (p : event -> bool) (lat lon : Q) (wps : list waypoint) :
  (forall name value, p (ae_event name value) = false) ->
  (forall id, p (log_signal (LogReached id)) = false) ->
  p waypoint_signal = false ->
  count p (flat_map (reaction lat lon) wps) = 0%nat.
Proof.
  intros Hc Hl Hs. induction wps as [| wp rest IH]; [reflexivity |].
  cbn [flat_map]. rewrite count_app, IH. unfold reaction.
  destruct (triggers lat lon wp); unfold count; cbn; [| reflexivity].
  rewrite Hc, Hl, Hs. reflexivity.
Qed.

Lemma reaction_no_ticks (lat lon : Q) (wps : list waypoint) :
  forall n : nat, touchdown_ticks_from n (flat_map (reaction lat lon) wps) = [].
Proof.
  induction wps as [| wp rest IH]; intros n; [reflexivity |].
  cbn [flat_map]. rewrite ticks_app, IH. unfold reaction.
  destruct (triggers lat lon wp); reflexivity.
Qed.

Lemma record_approach_unobserved (p : event -> bool) (lat lon alt vs g : Q) (w : world) :
  p (log_signal LogRecordingApproach) = false ->
  (forall x y z, p (approach_signal x y z) = false) ->
  count p (events (record_approach lat lon alt vs g) w) = 0%nat.
Proof.
  intros Hl Ha. unfold events. rewrite record_approach_run.
  destruct (_ && _); [| reflexivity].
  destruct (recording_approach w); unfold count; cbn; rewrite ?Hl, Ha; reflexivity.
Qed.

Lemma record_approach_no_ticks (lat lon alt vs g : Q) (w : world) (n : nat) :
  touchdown_ticks_from n (events (record_approach lat lon alt vs g) w) = [].
Proof.
  unfold events. rewrite record_approach_run.
  destruct (_ && _); [| reflexivity].
  destruct (recording_approach w); reflexivity.
Qed.

Lemma check_landing_events (env : tick_env) (lat lon vs g_force g : Q) (w : world) :
  let fire := Qeq_bool g 1 && was_airborne w && negb (on_ground (landing w)) in
  let h := firstn 100 (touchdown_entry env lat lon vs g_force w :: landing_history w) in
  events (check_landing env lat lon vs g_force g) w =
    if fire
    then (if disk_writable w then [] else [log_signal LogSaveFailed])
           ++ [update_history_table h;
               landing_signal (touchdown_data env lat lon vs g_force w);
               log_signal (LogLanding vs g_force);
               runJavaScript (addLandingMarker lat lon vs g_force)]
    else [].
Proof.
  intros fire h. unfold events. rewrite check_landing_run. fold fire.
  destruct fire; [rewrite touchdown_run |]; reflexivity.
Qed.

Lemma check_waypoints_events (env : tick_env) (lat lon : Q) (w : world) :
  events (check_waypoints env lat lon) w =
    if Qltb 2 (time_time env - last_check_time w)
    then flat_map (reaction lat lon) (waypoints w)
    else [].
Proof.
  unfold events. rewrite check_waypoints_run.
  destruct (Qltb 2 _); reflexivity.
Qed.

Lemma check_waypoints_unobserved (p : event -> bool) (env : tick_env) (lat lon : Q) (w : world) :
  (forall name value, p (ae_event name value) = false) ->
  (forall id, p (log_signal (LogReached id)) = false) ->
  p waypoint_signal = false ->
  count p (events (check_waypoints env lat lon) w) = 0%nat.
Proof.
  intros Hc Hl Hs. rewrite check_waypoints_events.
  destruct (Qltb 2 _); [apply reaction_unobserved; assumption | reflexivity].
Qed.

Lemma check_waypoints_no_ticks (env : tick_env) (lat lon : Q) (w : world) (n : nat) :
  touchdown_ticks_from n (events (check_waypoints env lat lon) w) = [].
Proof.
  rewrite check_waypoints_events.
  destruct (Qltb 2 _); [apply reaction_no_ticks | reflexivity].
Qed.

(** A pass whose reads succeed moves the two bits as [detector_step] says
    and emits the airborne notice and the touchdown signal accordingly. *)
Lemma process_detector (env : tick_env) (lat lon alt vs g g_force heading : Q) (w : world)
    (a' l' t f : bool) :
  detector_step (Some g) (was_airborne w) (on_ground (landing w)) = (a', l', (t, f)) ->
  let w' := exec (process env lat lon alt vs g g_force heading) w in
  let evs := events (process env lat lon alt vs g g_force heading) w in
  was_airborne w' = a' /\
  on_ground (landing w') = l' /\
  monitoring w' = monitoring w /\
  count is_airborne evs = b2n t /\
  count is_landing evs = b2n f /\
  count is_sleep evs = 1%nat /\
  (forall n, touchdown_ticks_from n evs = if f then [n] else []).
Proof.
  intros Hstep w' evs. unfold w', evs, exec, events. rewrite process_run.
  cbn [fst snd].
  set (w1 := exec (check_takeoff g) w).
  set (w2 := exec (record_approach lat lon alt vs g) w1).
  set (w3 := exec (check_landing env lat lon vs g_force g) w2).
  set (w4 := exec (check_waypoints env lat lon) w3).
  destruct (check_takeoff_fields g w) as (A1 & L1 & M1 & _ & E1).
  destruct (record_approach_fields lat lon alt vs g w1) as (A2 & D2 & M2 & _).
  destruct (check_landing_fields env lat lon vs g_force g w2) as (A3 & L3 & M3 & _).
  destruct (check_waypoints_fields env lat lon w3) as (A4 & D4 & M4 & _).
  fold w1 in A1, L1, M1. fold w2 in A2, D2, M2. fold w3 in A3, L3, M3.
  fold w4 in A4, D4, M4.
  cbn [detector_step] in Hstep. injection Hstep as Ha Hl Ht Hf.
  rewrite Hf in Hl. rewrite Ht in E1.
  assert (Hfire : Qeq_bool g 1 && was_airborne w2 && negb (on_ground (landing w2)) = f).
  { rewrite A2, D2, A1, L1. exact Hf. }
  assert (Hevs : forall l : list event,
             position_signal lat lon heading alt :: l
               = [position_signal lat lon heading alt] ++ l) by reflexivity.
  cbn [was_airborne landing monitoring set_last_altitude].
  repeat split.
  - rewrite A4, A3, A2, A1. exact Ha.
  - rewrite D4, L3, Hfire, D2, L1. exact Hl.
  - rewrite M4, M3, M2, M1. reflexivity.
  - rewrite Hevs, !count_app, E1.
    rewrite record_approach_unobserved by reflexivity.
    rewrite check_waypoints_unobserved by reflexivity.
    rewrite check_landing_events, Hfire.
    destruct t, f, (disk_writable w2); reflexivity.
  - rewrite Hevs, !count_app, E1.
    rewrite record_approach_unobserved by reflexivity.
    rewrite check_waypoints_unobserved by reflexivity.
    rewrite check_landing_events, Hfire.
    destruct t, f, (disk_writable w2); reflexivity.
  - rewrite Hevs, !count_app, E1.
    rewrite record_approach_unobserved by reflexivity.
    rewrite check_waypoints_unobserved by reflexivity.
    rewrite check_landing_events, Hfire.
    destruct t, f, (disk_writable w2); reflexivity.
  - intros n. cbn [touchdown_ticks_from].
    rewrite !ticks_app, E1.
    rewrite record_approach_no_ticks, check_waypoints_no_ticks.
    rewrite (record_approach_unobserved is_sleep) by reflexivity.
    rewrite check_landing_events, Hfire.
    destruct t, f, (disk_writable w2); cbn; rewrite ?Nat.add_0_r; reflexivity.
Qed.

(** Every pass, also one whose reads fail, follows [detector_step] on its
    on-ground reading. *)
Lemma iteration_detector (env : tick_env) (w : world) (a' l' t f : bool) :
  detector_step (on_ground_reading env) (was_airborne w) (on_ground (landing w))
    = (a', l', (t, f)) ->
  was_airborne (exec (iteration env) w) = a' /\
  on_ground (landing (exec (iteration env) w)) = l' /\
  monitoring (exec (iteration env) w) = monitoring w /\
  count is_airborne (events (iteration env) w) = b2n t /\
  count is_landing (events (iteration env) w) = b2n f /\
  count is_sleep (events (iteration env) w) = 1%nat /\
  (forall n, touchdown_ticks_from n (events (iteration env) w) = if f then [n] else []).
Proof.
  unfold on_ground_reading, exec, events. rewrite iteration_run.
  destruct (read_all env) as [tel | e]; intros Hstep.
  - apply (process_detector env (t_lat tel) (t_lon tel) (t_alt tel) (t_vs tel)
             (t_on_ground tel) (t_g_force tel) (t_heading tel) w a' l' t f Hstep).
  - cbn in Hstep. injection Hstep as Ha Hl Ht Hf. subst a' l' t f. cbn. repeat split.
Qed.

Lemma monitor_loop_off (envs : list tick_env) (w : world) :
  monitoring w = false -> monitor_loop envs w = (Ok tt, w, []).
Proof.
  intros Hoff. destruct envs as [| env rest]; [reflexivity |].
  cbn [monitor_loop]. unfold bind, gets. rewrite Hoff. reflexivity.
Qed.

Lemma monitor_loop_cons (env : tick_env) (rest : list tick_env) (w : world) :
  monitoring w = true ->
  monitor_loop (env :: rest) w =
    (outcome (monitor_loop rest) (exec (iteration env) w),
     exec (monitor_loop rest) (exec (iteration env) w),
     events (iteration env) w ++ events (monitor_loop rest) (exec (iteration env) w)).
Proof.
  intros Hon. cbn [monitor_loop]. unfold bind at 1, gets at 1. rewrite Hon.
  rewrite bind_ok with (a := tt) by apply iteration_ok.
  cbn [app]. reflexivity.
Qed.

(** The loop raises nothing, whatever the reads do. *)
Lemma monitor_loop_ok (envs : list tick_env) :
  forall w : world, outcome (monitor_loop envs) w = Ok tt.
Proof.
  induction envs as [| env rest IH]; intros w; [reflexivity |].
  destruct (monitoring w) eqn:Hon.
  - unfold outcome. rewrite monitor_loop_cons by exact Hon. apply IH.
  - unfold outcome. rewrite monitor_loop_off by exact Hon. reflexivity.
Qed.

(** While [self.monitoring] stays set, every pass is made: one sleep each. *)
Lemma monitor_loop_sleeps (envs : list tick_env) :
  forall w : world,
    monitoring w = true ->
    count is_sleep (events (monitor_loop envs) w) = List.length envs.
Proof.
  induction envs as [| env rest IH]; intros w Hon; [reflexivity |].
  unfold events. rewrite monitor_loop_cons by exact Hon. cbn [snd].
  destruct (detector_step (on_ground_reading env) (was_airborne w) (on_ground (landing w)))
    as [[a' l'] [t f]] eqn:Hstep.
  destruct (iteration_detector env w a' l' t f Hstep) as (_ & _ & Hm & _ & _ & Hs & _).
  rewrite count_app, Hs, IH by congruence. reflexivity.
Qed.

Lemma monitor_loop_ticks (envs : list tick_env) :
  forall (w : world) (n : nat),
    monitoring w = true ->
    touchdown_ticks_from n (events (monitor_loop envs) w)
      = detector_ticks (was_airborne w) (on_ground (landing w)) n
          (map on_ground_reading envs).
Proof.
  induction envs as [| env rest IH]; intros w n Hon; [reflexivity |].
  unfold events. rewrite monitor_loop_cons by exact Hon. cbn [snd map detector_ticks].
  destruct (detector_step (on_ground_reading env) (was_airborne w) (on_ground (landing w)))
    as [[a' l'] [t f]] eqn:Hstep.
  destruct (iteration_detector env w a' l' t f Hstep)
    as (Ha & Hl & Hm & _ & _ & Hs & Ht).
  rewrite ticks_app, Ht, Hs, Nat.add_1_r, IH by congruence.
  rewrite Ha, Hl. reflexivity.
Qed.

(** The two-bit detector logs the airborne notice only while
    [was_airborne] is clear, and fires only before both bits are set. *)
Lemma detector_step_budget (r : option Q) (a l a' l' t f : bool) :
  detector_step r a l = (a', l', (t, f)) ->
  (b2n t + b2n a <= b2n a')%nat /\
  (b2n f + b2n (a && l) <= b2n (a' && l'))%nat.
Proof.
  destruct r as [g |]; cbn [detector_step]; intros Hstep;
    injection Hstep as Ha Hl Ht Hf; subst a' l' t f.
  - destruct (Qeq_bool g 0), (Qeq_bool g 1), a, l; cbn; lia.
  - destruct a, l; cbn; lia.
Qed.

Lemma monitor_loop_budget (envs : list tick_env) :
  forall w : world,
    (count is_airborne (events (monitor_loop envs) w) + b2n (was_airborne w) <= 1)%nat /\
    (count is_landing (events (monitor_loop envs) w)
       + b2n (was_airborne w && on_ground (landing w)) <= 1)%nat.
Proof.
  induction envs as [| env rest IH]; intros w.
  - cbn. destruct (was_airborne w), (on_ground (landing w)); cbn; lia.
  - destruct (monitoring w) eqn:Hon.
    + unfold events. rewrite monitor_loop_cons by exact Hon. cbn [snd].
      destruct (detector_step (on_ground_reading env) (was_airborne w)
                  (on_ground (landing w))) as [[a' l'] [t f]] eqn:Hstep.
      destruct (iteration_detector env w a' l' t f Hstep)
        as (Ha & Hl & _ & Hca & Hcl & _).
      destruct (detector_step_budget _ _ _ _ _ _ _ Hstep) as (Bt & Bf).
      destruct (IH (exec (iteration env) w)) as [IHa IHl].
      fold (events (monitor_loop rest) (exec (iteration env) w)).
      rewrite Ha, Hl in *. rewrite !count_app, Hca, Hcl.
      destruct t, f, a', l', (was_airborne w), (on_ground (landing w));
        cbn in *; lia.
    + unfold events. rewrite monitor_loop_off by exact Hon. cbn.
      destruct (was_airborne w), (on_ground (landing w)); cbn; lia.
Qed.

Lemma monitor_flight_run (now : Q) (envs : list tick_env) (w : world) :
  monitor_flight now envs w =
    monitor_loop envs
      (set_recording_approach false (set_last_check_time now (set_was_airborne false w))).
Proof.
  unfold monitor_flight, bind, modify.
  destruct (monitor_loop envs _) as [[r w'] evs]. reflexivity.
Qed.

(** C10: in one run of the polling loop the airborne notice is logged at
    most once and a touchdown is signalled at most once, whatever the
    on-ground readings (and read failures) of its passes; [was_airborne],
    once set, is not cleared by any pass. *)
Theorem one_takeoff_one_touchdown_per_session
    (now : Q) (envs : list tick_env) (w : world) :
  (count is_airborne (events (monitor_flight now envs) w) <= 1)%nat /\
  (count is_landing (events (monitor_flight now envs) w) <= 1)%nat /\
  (count is_airborne (events (session now envs) w) <= 1)%nat /\
  (count is_landing (events (session now envs) w) <= 1)%nat /\
  (forall env w0, was_airborne w0 = true ->
     was_airborne (exec (iteration env) w0) = true /\
     count is_airborne (events (iteration env) w0) = 0%nat).
Proof.
  assert (Hflight : forall w1,
             (count is_airborne (events (monitor_flight now envs) w1) <= 1)%nat /\
             (count is_landing (events (monitor_flight now envs) w1) <= 1)%nat).
  { intros w1. unfold events. rewrite monitor_flight_run.
    destruct (monitor_loop_budget envs
                (set_recording_approach false
                   (set_last_check_time now (set_was_airborne false w1)))) as [Ha Hl].
    unfold events in Ha, Hl. split; lia. }
  split; [apply Hflight |]. split; [apply Hflight |].
  assert (Hsession :
            events (session now envs) w
              = events toggle_monitoring w
                  ++ events (monitor_flight now envs) (exec toggle_monitoring w)).
  { unfold session. apply events_bind with (a := tt).
    unfold outcome, toggle_monitoring, bind, gets, modify, emit.
    destruct (monitoring w); reflexivity. }
  assert (Hquiet : count is_airborne (events toggle_monitoring w) = 0%nat /\
                   count is_landing (events toggle_monitoring w) = 0%nat).
  { unfold events, toggle_monitoring, bind, gets, modify, emit.
    destruct (monitoring w); split; reflexivity. }
  destruct Hquiet as [Hqa Hql].
  destruct (Hflight (exec toggle_monitoring w)) as [Ha Hl].
  rewrite Hsession, !count_app, Hqa, Hql.
  split; [exact Ha |]. split; [exact Hl |].
  intros env w0 Hair.
  destruct (detector_step (on_ground_reading env) (was_airborne w0)
              (on_ground (landing w0))) as [[a' l'] [t f]] eqn:Hstep.
  destruct (iteration_detector env w0 a' l' t f Hstep) as (Ha' & _ & _ & Hca & _).
  destruct (detector_step_budget _ _ _ _ _ _ _ Hstep) as (Bt & _).
  rewrite Hair in Bt. rewrite Ha', Hca.
  destruct a', t; cbn in *; split; (reflexivity || lia).
Qed.

(** C8: when a telemetry read of a pass raises, the pass does nothing
    but log the warning and sleep 2 seconds (a pass that reads everything
    ends with a 1 second sleep); the whole state, and with it was_airborne,
    recording_approach, the latch, the approach path and the history, is as
    before; the loop raises nothing and goes on with the next passes. *)
Theorem read_error_is_transient
    (env : tick_env) (v : simvar) (e : exn) (rest : list tick_env) (w : world) :
  aq_get env v = Raise e ->
  exists e' : exn,
    iteration env w = (Ok tt, w, [log_signal (LogMonitoringError e'); sleep 2]) /\
    (forall env' t, read_all env' = Ok t ->
       exists evs, events (iteration env') w = evs ++ [sleep 1]) /\
    (monitoring w = true ->
       exec (monitor_loop (env :: rest)) w = exec (monitor_loop rest) w /\
       events (monitor_loop (env :: rest)) w
         = [log_signal (LogMonitoringError e'); sleep 2]
             ++ events (monitor_loop rest) w /\
       count is_sleep (events (monitor_loop (env :: rest)) w) = S (List.length rest)) /\
    outcome (monitor_loop (env :: rest)) w = Ok tt.
Proof.
  intros Hread. destruct (read_all_fails env v e Hread) as [e' He'].
  assert (Hpass : iteration env w
                  = (Ok tt, w, [log_signal (LogMonitoringError e'); sleep 2])).
  { rewrite iteration_run, He'. reflexivity. }
  exists e'. split; [exact Hpass |]. split; [| split].
  - intros env' t Ht. unfold events. rewrite iteration_run, Ht, process_run.
    cbn [snd]. eexists. rewrite app_comm_cons, !app_assoc. reflexivity.
  - intros Hon.
    assert (Hexec : exec (iteration env) w = w) by (unfold exec; rewrite Hpass; reflexivity).
    assert (Hevs : events (iteration env) w
                   = [log_signal (LogMonitoringError e'); sleep 2])
      by (unfold events; rewrite Hpass; reflexivity).
    split; [| split].
    + unfold exec at 1. rewrite monitor_loop_cons by exact Hon.
      cbn [fst snd]. rewrite Hexec. reflexivity.
    + unfold events at 1. rewrite monitor_loop_cons by exact Hon.
      cbn [snd]. rewrite Hexec, Hevs. reflexivity.
    + apply (monitor_loop_sleeps (env :: rest) w Hon).
  - apply monitor_loop_ok.
Qed.

(** The g-force read fails in a pass on the freshly initialised monitor:
    the state is untouched. *)
Lemma read_error_is_transient_witness :
  exists e' : exn,
    iteration broken_pass fresh_world
      = (Ok tt, fresh_world, [log_signal (LogMonitoringError e'); sleep 2]).
Proof.
  destruct (read_error_is_transient broken_pass G_FORCE (SimConnectError G_FORCE) []
              fresh_world eq_refl) as [e' [Hpass _]].
  exists e'. exact Hpass.
Defined.

Lemma Qeq_bool_1_not_0 (g : Q) : Qeq_bool g 1 = true -> Qeq_bool g 0 = false.
Proof.
  intros H1. destruct (Qeq_bool g 0) eqn:H0; [| reflexivity].
  apply Qeq_bool_iff in H1, H0. rewrite H1 in H0. discriminate.
Qed.

Lemma detector_ticks_done (rs : list (option Q)) :
  forall n, detector_ticks true true n rs = [].
Proof.
  induction rs as [| [g |] rest IH]; intros n; [reflexivity | |];
    cbn [detector_ticks detector_step].
  - destruct (Qeq_bool g 0), (Qeq_bool g 1); cbn [negb andb orb app]; apply IH.
  - apply IH.
Qed.

Lemma detector_ticks_armed (rs : list (option Q)) :
  forall n, detector_ticks true false n rs = await_ground n rs.
Proof.
  induction rs as [| [g |] rest IH]; intros n; [reflexivity | |];
    cbn [detector_ticks detector_step await_ground].
  - destruct (Qeq_bool g 0), (Qeq_bool g 1); cbn [negb andb orb app];
      first [rewrite detector_ticks_done; reflexivity | apply IH].
  - apply IH.
Qed.

Lemma detector_ticks_grounded (rs : list (option Q)) :
  forall n l, detector_ticks false l n rs = await_air n rs.
Proof.
  induction rs as [| [g |] rest IH]; intros n l; [reflexivity | |];
    cbn [detector_ticks detector_step await_air].
  - destruct (Qeq_bool g 0) eqn:H0, (Qeq_bool g 1) eqn:H1, l;
      cbn [negb andb orb app];
      first [ apply Qeq_bool_1_not_0 in H1; congruence
            | apply detector_ticks_armed
            | apply IH ].
  - apply IH.
Qed.

Lemma ticks_count (evs : list event) :
  forall n, List.length (touchdown_ticks_from n evs) = count is_landing evs.
Proof.
  induction evs as [| e evs IH]; intros n; [reflexivity |].
  destruct e; cbn [touchdown_ticks_from]; unfold count in *; cbn; rewrite IH;
    reflexivity.
Qed.

Lemma session_run (now : Q) (envs : list tick_env) (w : world) :
  monitoring w = false ->
  session now envs w =
    let w0 := set_recording_approach false
                (set_last_check_time now
                   (set_was_airborne false
                      (set_approach_path [] (set_monitoring true w)))) in
    (outcome (monitor_loop envs) w0, exec (monitor_loop envs) w0,
     [log_signal LogStarted; runJavaScript clearBreadcrumbs]
       ++ events (monitor_loop envs) w0).
Proof.
  intros Hoff. unfold session, toggle_monitoring.
  unfold bind at 1. unfold bind at 1, gets at 1. rewrite Hoff. cbn [negb].
  unfold bind at 1 2 3, modify at 1 2, emit at 1 2. cbn [app].
  rewrite monitor_flight_run.
  rewrite (run_eta (monitor_loop envs) _). reflexivity.
Qed.

(** The passes of a fresh session that signal a touchdown. *)
Lemma session_ticks (now : Q) (envs : list tick_env) (w : world) :
  monitoring w = false ->
  touchdown_ticks (events (session now envs) w)
    = await_air 1 (map on_ground_reading envs) /\
  count is_landing (events (session now envs) w)
    = List.length (await_air 1 (map on_ground_reading envs)).
Proof.
  intros Hoff.
  assert (Hticks : touchdown_ticks (events (session now envs) w)
                   = await_air 1 (map on_ground_reading envs)).
  { unfold touchdown_ticks, events. rewrite session_run by exact Hoff.
    cbn [snd app touchdown_ticks_from].
    rewrite monitor_loop_ticks by reflexivity.
    cbn [was_airborne set_recording_approach set_last_check_time set_was_airborne].
    apply detector_ticks_grounded. }
  split; [exact Hticks |].
  unfold touchdown_ticks in Hticks. rewrite <- (ticks_count _ 1), Hticks.
  reflexivity.
Qed.

(** What a pass signals, in terms of the state before it. *)
Lemma iteration_fires (env : tick_env) (w : world) :
  count is_landing (events (iteration env) w)
    = match on_ground_reading env with
      | Some g => b2n (Qeq_bool g 1 && was_airborne w && negb (on_ground (landing w)))
      | None => 0%nat
      end /\
  (count is_landing (events (iteration env) w) = 1%nat ->
     on_ground (landing (exec (iteration env) w)) = true) /\
  (on_ground (landing (exec (iteration env) w)) = false ->
     on_ground (landing w) = false \/
     (was_airborne w = false /\
      exists g, on_ground_reading env = Some g /\ Qeq_bool g 0 = true)).
Proof.
  destruct (detector_step (on_ground_reading env) (was_airborne w)
              (on_ground (landing w))) as [[a' l'] [t f]] eqn:Hstep.
  destruct (iteration_detector env w a' l' t f Hstep) as (_ & Hl & _ & _ & Hc & _).
  rewrite Hc, Hl. clear Hc Hl.
  destruct (on_ground_reading env) as [g |]; cbn [detector_step] in Hstep;
    injection Hstep as Ha Hl Ht Hf; subst a' l' t f.
  - destruct (Qeq_bool g 1) eqn:H1.
    + rewrite (Qeq_bool_1_not_0 g H1). cbn [andb orb negb].
      rewrite !orb_false_r, !andb_true_r.
      destruct (was_airborne w), (on_ground (landing w)); cbn;
        repeat split; intros; auto; discriminate.
    + cbn [andb orb negb]. rewrite !orb_false_r.
      destruct (Qeq_bool g 0) eqn:H0, (was_airborne w), (on_ground (landing w)); cbn;
        repeat split; intros;
        first [ reflexivity
              | discriminate
              | left; reflexivity
              | right; split;
                [reflexivity | exists g; split; [reflexivity | exact H0]] ].
  - cbn. repeat split; intros; auto; discriminate.
Qed.




End DetectorFacts.

(** ** The approach path *)

Section ApproachFacts.

Lemma on_ground_reading_read (env : tick_env) (g : Q) :
  on_ground_reading env = Some g ->
  exists t, read_all env = Ok t /\ t_on_ground t = g.
Proof.
  unfold on_ground_reading. destruct (read_all env) as [t | e]; [| discriminate].
  intros H. injection H as H. eauto.
Qed.

Lemma toggle_monitoring_starts (w : world) :
  monitoring w = false ->
  toggle_monitoring w =
    (Ok tt, set_approach_path [] (set_monitoring true w),
     [log_signal LogStarted; runJavaScript clearBreadcrumbs]).
Proof.
  intros Hoff. unfold toggle_monitoring, bind, gets, modify, emit.
  rewrite Hoff. reflexivity.
Qed.

(** The touchdown block reads the approach path and leaves it as it is. *)
Lemma touchdown_keeps_path (env : tick_env) (lat lon vs g_force : Q) (w : world) :
  approach_path (exec (touchdown env lat lon vs g_force) w) = approach_path w /\
  recording_approach (exec (touchdown env lat lon vs g_force) w) = false /\
  landing (exec (touchdown env lat lon vs g_force) w)
    = touchdown_data env lat lon vs g_force w.
Proof.
  unfold exec. rewrite touchdown_run. cbn [fst snd].
  set (h := firstn 100 _).
  destruct (persisted_fields h
              (set_landing_history h
                 (set_landing (touchdown_data env lat lon vs g_force w) w)))
    as (_ & Hl & _ & Hp & _).
  cbn [approach_path recording_approach landing set_recording_approach].
  rewrite Hp, Hl. repeat split.
Qed.

(** A pass that signals a touchdown: its reads succeeded, the on-ground
    reading is 1, and its state is that of the touchdown block followed by
    the waypoint check. *)
Lemma touchdown_pass (env : tick_env) (w : world) :
  count is_landing (events (iteration env) w) = 1%nat ->
  exists t,
    read_all env = Ok t /\
    Qeq_bool (t_on_ground t) 1 = true /\
    was_airborne w = true /\
    on_ground (landing w) = false /\
    exec (iteration env) w =
      set_last_altitude (t_alt t)
        (exec (check_waypoints env (t_lat t) (t_lon t))
           (exec (touchdown env (t_lat t) (t_lon t) (t_vs t) (t_g_force t)) w)).
Proof.
  intros Hone. destruct (iteration_fires env w) as (Hc & _).
  rewrite Hone in Hc.
  destruct (on_ground_reading env) as [g |] eqn:Hg; [| discriminate].
  destruct (on_ground_reading_read env g Hg) as (t & Ht & Hgt). subst g.
  destruct (Qeq_bool (t_on_ground t) 1) eqn:H1; [| discriminate].
  destruct (was_airborne w) eqn:Ha; [| discriminate].
  destruct (on_ground (landing w)) eqn:Hl; [discriminate |].
  exists t. split; [exact Ht |]. split; [exact H1 |].
  split; [reflexivity |]. split; [reflexivity |].
  pose proof (Qeq_bool_1_not_0 _ H1) as H0.
  unfold exec at 1. rewrite iteration_run, Ht, process_run. cbn [fst snd].
  assert (Hw1 : exec (check_takeoff (t_on_ground t)) w = w).
  { unfold exec. rewrite check_takeoff_run, H0. reflexivity. }
  rewrite Hw1.
  assert (Hw2 : exec (record_approach (t_lat t) (t_lon t) (t_alt t) (t_vs t)
                        (t_on_ground t)) w = w).
  { unfold exec. rewrite record_approach_run, H0, andb_false_r. reflexivity. }
  rewrite Hw2.
  assert (Hw3 : exec (check_landing env (t_lat t) (t_lon t) (t_vs t) (t_g_force t)
                        (t_on_ground t)) w
                = exec (touchdown env (t_lat t) (t_lon t) (t_vs t) (t_g_force t)) w).
  { unfold exec. rewrite check_landing_run, H1, Ha, Hl. reflexivity. }
  rewrite Hw3. reflexivity.
Qed.

Lemma touchdown_pass_path (env : tick_env) (w : world) :
  count is_landing (events (iteration env) w) = 1%nat ->
  approach_path (exec (iteration env) w) = approach_path w /\
  recording_approach (exec (iteration env) w) = false /\
  (exists t, read_all env = Ok t /\
     landing (exec (iteration env) w)
       = touchdown_data env (t_lat t) (t_lon t) (t_vs t) (t_g_force t) w).
Proof.
  intros Hone. destruct (touchdown_pass env w Hone) as (t & Ht & _ & _ & _ & Hexec).
  destruct (touchdown_keeps_path env (t_lat t) (t_lon t) (t_vs t) (t_g_force t) w)
    as (Hp & Hr & Hd).
  set (w3 := exec (touchdown env (t_lat t) (t_lon t) (t_vs t) (t_g_force t)) w) in *.
  destruct (check_waypoints_fields env (t_lat t) (t_lon t) w3) as (_ & Hd4 & _ & Hp4).
  assert (Hr4 : recording_approach (exec (check_waypoints env (t_lat t) (t_lon t)) w3)
                = recording_approach w3).
  { unfold exec. rewrite check_waypoints_run. destruct (Qltb 2 _); reflexivity. }
  rewrite Hexec. cbn [approach_path recording_approach landing set_last_altitude].
  rewrite Hp4, Hp, Hr4, Hr, Hd4, Hd.
  split; [reflexivity |]. split; [reflexivity |].
  exists t. split; [exact Ht | reflexivity].
Qed.

Lemma monitor_loop_app (l1 l2 : list tick_env) :
  forall w : world,
    exec (monitor_loop (l1 ++ l2)) w
      = exec (monitor_loop l2) (exec (monitor_loop l1) w).
Proof.
  induction l1 as [| env rest IH]; intros w; [reflexivity |].
  destruct (monitoring w) eqn:Hon.
  - cbn [app]. unfold exec at 1 3. rewrite !monitor_loop_cons by exact Hon.
    cbn [fst snd]. apply IH.
  - cbn [app]. unfold exec at 1 3. rewrite !monitor_loop_off by exact Hon.
    cbn [fst snd]. unfold exec. rewrite monitor_loop_off by exact Hon. reflexivity.
Qed.

Lemma monitor_loop_monitoring (envs : list tick_env) :
  forall w : world, monitoring (exec (monitor_loop envs) w) = monitoring w.
Proof.
  induction envs as [| env rest IH]; intros w; [reflexivity |].
  destruct (monitoring w) eqn:Hon.
  - unfold exec. rewrite monitor_loop_cons by exact Hon. cbn [fst snd].
    fold (exec (monitor_loop rest) (exec (iteration env) w)). rewrite IH.
    destruct (detector_step (on_ground_reading env) (was_airborne w)
                (on_ground (landing w))) as [[a' l'] [t f]] eqn:Hstep.
    destruct (iteration_detector env w a' l' t f Hstep) as (_ & _ & Hm & _).
    congruence.
  - unfold exec. rewrite monitor_loop_off by exact Hon. exact Hon.
Qed.

Lemma session_exec (now : Q) (envs : list tick_env) (w : world) :
  monitoring w = false ->
  exec (session now envs) w = exec (monitor_loop envs) (session_start now w).
Proof.
  intros Hoff. unfold exec at 1. rewrite session_run by exact Hoff. reflexivity.
Qed.

(** The last pass of a session runs on the state the passes before it left. *)
Lemma session_last_pass (now : Q) (envs : list tick_env) (env : tick_env) (w : world) :
  monitoring w = false ->
  exec (session now (envs ++ [env])) w
    = exec (iteration env) (exec (monitor_loop envs) (session_start now w)).
Proof.
  intros Hoff. rewrite session_exec by exact Hoff. rewrite monitor_loop_app.
  unfold exec at 1. rewrite monitor_loop_cons.
  - reflexivity.
  - rewrite monitor_loop_monitoring. reflexivity.
Qed.

Lemma ground_pass_lands :
  count is_landing (events (iteration ground_pass) before_touchdown) = 1%nat.
Proof. exact (eq_trans (proj1 (iteration_fires ground_pass before_touchdown)) eq_refl). Qed.

(** C4, amended: a pass that signals a touchdown reads the approach path
    for the landing statistics and leaves it unchanged (only
    recording_approach is reset to false); the path is emptied when a
    monitoring session starts and when the landing data is reset. *)
Theorem approach_path_kept_at_touchdown (env : tick_env) (w : world) :
  count is_landing (events (iteration env) w) = 1%nat ->
  approach_path (exec (iteration env) w) = approach_path w /\
  recording_approach (exec (iteration env) w) = false /\
  (exists t, read_all env = Ok t /\
     landing (exec (iteration env) w)
       = touchdown_data env (t_lat t) (t_lon t) (t_vs t) (t_g_force t) w) /\
  (forall w0, monitoring w0 = false -> approach_path (exec toggle_monitoring w0) = []) /\
  (forall w0, approach_path (exec reset_landing_data w0) = []).
Proof.
  intros Hone. destruct (touchdown_pass_path env w Hone) as (Hp & Hr & Hd).
  split; [exact Hp |]. split; [exact Hr |]. split; [exact Hd |]. split.
  - intros w0 Hoff. unfold exec. rewrite toggle_monitoring_starts by exact Hoff.
    reflexivity.
  - intros w0. reflexivity.
Qed.

(** The pass on the ground after two approach points: both points are
    still in the path. *)
Lemma approach_path_kept_at_touchdown_witness :
  count is_landing (events (iteration ground_pass) before_touchdown) = 1%nat /\
  approach_path (exec (iteration ground_pass) before_touchdown)
    = [(47, 8, 2000); (47.01, 8, 1500)]%Q.
Proof.
  split; [exact ground_pass_lands |].
  exact (proj1 (approach_path_kept_at_touchdown ground_pass before_touchdown
                  ground_pass_lands)).
Defined.

(** C4 as stated fails: after the session of [landing_passes], whose
    third pass signals the touchdown, the approach path still holds the two
    approach points. *)
Lemma approach_path_reset_counterexample :
  count is_landing (events (session 0 landing_passes) fresh_world) = 1%nat /\
  approach_path (exec (session 0 landing_passes) fresh_world)
    = [(47, 8, 2000); (47.01, 8, 1500)]%Q /\
  approach_path (exec (session 0 landing_passes) fresh_world) <> [].
Proof.
  assert (Hcount : count is_landing (events (session 0 landing_passes) fresh_world)
                   = 1%nat)
    by exact (eq_trans (proj2 (session_ticks 0 landing_passes fresh_world eq_refl))
                eq_refl).
  assert (Htwo : exec (monitor_loop (firstn 2 landing_passes))
                   (session_start 0 fresh_world)
                 = before_touchdown) by (vm_compute; reflexivity).
  assert (Hpath : approach_path (exec (session 0 landing_passes) fresh_world)
                  = [(47, 8, 2000); (47.01, 8, 1500)]%Q).
  { change landing_passes with (firstn 2 landing_passes ++ [ground_pass]).
    rewrite session_last_pass by reflexivity.
    rewrite Htwo.
    rewrite (proj1 (touchdown_pass_path ground_pass before_touchdown ground_pass_lands)).
    reflexivity. }
  split; [exact Hcount |]. split; [exact Hpath |].
  intros Hnil. pose proof (eq_trans (eq_sym Hpath) Hnil) as Habs. discriminate Habs.
Qed.

(** *** The statistics of the approach *)






End ApproachFacts.

(** ** WaypointProximityWatcher *)

Section WaypointFacts.








End WaypointFacts.

(** * Further properties *)

(** ** More on the rating *)

Section RatingFacts.
Local Open Scope Q_scope.

Ltac by_tests tests :=
  lazymatch tests with
  | nil => idtac
  | cons (?x, ?y) ?rest =>
      destruct (Qltb_spec x y); [| by_tests rest]
  end.

Lemma Qltb_proper (x x' y : Q) : x == x' -> Qltb x y = Qltb x' y.
Proof. intros Hx. unfold Qltb. rewrite Hx. reflexivity. Qed.

(** X4: the rating depends on the vertical speed only through its
    absolute value: a speed and its negation get the same rating. *)
Theorem get_landing_rating_sign (fpm g : Q) :
  get_landing_rating (- fpm) g = get_landing_rating fpm g /\
  combined_score (- fpm) g = combined_score fpm g.
Proof.
  assert (Hscore : fpm_score (- fpm) = fpm_score fpm).
  { unfold fpm_score. rewrite !(Qltb_proper (Qabs (- fpm)) (Qabs fpm))
      by apply Qabs_opp. reflexivity. }
  unfold get_landing_rating, combined_score. rewrite Hscore. split; reflexivity.
Qed.

Lemma fpm_score_antitone (fpm1 fpm2 : Q) :
  Qabs fpm1 <= Qabs fpm2 -> fpm_score fpm2 <= fpm_score fpm1.
Proof.
  unfold fpm_score. generalize (Qabs fpm1) as a, (Qabs fpm2) as b. intros a b Hab.
  by_tests [(a, 100); (a, 200); (a, 300); (a, 400); (a, 600)];
    by_tests [(b, 100); (b, 200); (b, 300); (b, 400); (b, 600)]; lra.
Qed.

Lemma g_score_antitone (g1 g2 : Q) : g1 <= g2 -> g_score g2 <= g_score g1.
Proof.
  unfold g_score. intros Hab.
  by_tests [(g1, 1.3); (g1, 1.5); (g1, 1.8); (g1, 2.0); (g1, 2.5)];
    by_tests [(g2, 1.3); (g2, 1.5); (g2, 1.8); (g2, 2.0); (g2, 2.5)]; lra.
Qed.

Lemma stars_of_score (fpm1 g1 fpm2 g2 : Q) :
  combined_score fpm2 g2 <= combined_score fpm1 g1 ->
  (stars (get_landing_rating fpm2 g2) <= stars (get_landing_rating fpm1 g1))%nat.
Proof.
  unfold get_landing_rating.
  generalize (combined_score fpm1 g1) as c1, (combined_score fpm2 g2) as c2.
  intros c1 c2 Hc.
  destruct (Qleb_spec 95 c1); [| destruct (Qleb_spec 80 c1);
    [| destruct (Qleb_spec 65 c1); [| destruct (Qleb_spec 45 c1)]]];
  (destruct (Qleb_spec 95 c2); [| destruct (Qleb_spec 80 c2);
    [| destruct (Qleb_spec 65 c2); [| destruct (Qleb_spec 45 c2)]]]);
  first [ exfalso; lra | vm_compute; lia ].
Qed.

(** X5: a touchdown that is at least as fast and at least as heavy as
    another never gets a higher combined score nor more stars. *)
Theorem get_landing_rating_monotone (fpm1 g1 fpm2 g2 : Q) :
  Qabs fpm1 <= Qabs fpm2 ->
  g1 <= g2 ->
  combined_score fpm2 g2 <= combined_score fpm1 g1 /\
  (stars (get_landing_rating fpm2 g2) <= stars (get_landing_rating fpm1 g1))%nat.
Proof.
  intros Hf Hg.
  assert (Hc : combined_score fpm2 g2 <= combined_score fpm1 g1).
  { unfold combined_score.
    pose proof (fpm_score_antitone fpm1 fpm2 Hf).
    pose proof (g_score_antitone g1 g2 Hg). lra. }
  split; [exact Hc | apply stars_of_score; exact Hc].
Qed.

(** 150 fpm at 1.2 g against 450 fpm at 1.9 g. *)
Lemma get_landing_rating_monotone_witness :
  (stars (get_landing_rating (-450) 1.9) <= stars (get_landing_rating (-150) 1.2))%nat.
Proof.
  apply (get_landing_rating_monotone (-150) 1.2 (-450) 1.9).
  - vm_compute. discriminate.
  - vm_compute. discriminate.
Defined.

(** X6: the five-star rating is given exactly to touchdowns under 100 fpm
    with less than 1.3 g; the one-star rating is given only at 300 fpm or
    more together with 1.3 g or more; the combined score is between 10 and
    100 and every rating has one to five stars. *)
Theorem get_landing_rating_extremes (fpm g : Q) :
  (get_landing_rating fpm g = PERFECT <-> Qabs fpm < 100 /\ g < 1.3) /\
  (get_landing_rating fpm g = HARD -> 300 <= Qabs fpm /\ 1.3 <= g) /\
  10 <= combined_score fpm g <= 100 /\
  (1 <= stars (get_landing_rating fpm g) <= 5)%nat.
Proof.
  unfold get_landing_rating, combined_score, fpm_score, g_score.
  generalize (Qabs fpm) as a. intros a. cbv zeta.
  by_tests [(a, 100); (a, 200); (a, 300); (a, 400); (a, 600)];
    by_tests [(g, 1.3); (g, 1.5); (g, 1.8); (g, 2.0); (g, 2.5)];
    repeat match goal with
           | |- context [Qle_bool ?x ?y] =>
               let b := eval vm_compute in (Qle_bool x y) in
               change (Qle_bool x y) with b; cbv iota
           end;
    (split; [| split; [| split]]);
    first [ split; [intros _; split; assumption | intros _; reflexivity]
          | split; [intros H; discriminate H | intros [Ha Hg]; exfalso; lra]
          | intros H; discriminate H
          | intros _; split; lra
          | split; lra
          | vm_compute; lia ].
Qed.

End RatingFacts.

(** ** More on the history *)

Section HistoryMore.

(** X7: [save_landing_to_history] on landing data whose touchdown speed
    or g-force is still [None] raises [TypeError] before it touches
    anything: the history, the file and the rest of the state are as before
    and nothing is emitted. *)
Theorem save_landing_to_history_unrated (data : landing_data) (w : world) :
  entry_of data = None ->
  save_landing_to_history data w = (Raise TypeError, w, []).
Proof.
  unfold entry_of, save_landing_to_history.
  destruct (touchdown_fpm data) as [fpm |]; [| reflexivity].
  destruct (touchdown_g data) as [g |]; [| reflexivity].
  destruct (get_landing_rating fpm g) as [[rating text] colour]. discriminate.
Qed.

(** The landing data of a monitor that has seen no touchdown. *)
Lemma save_landing_to_history_unrated_witness :
  save_landing_to_history fresh_landing_data fresh_world
    = (Raise TypeError, fresh_world, []).
Proof. apply save_landing_to_history_unrated. reflexivity. Defined.



(** X9: [clear_history] does nothing at all unless the confirmation box
    is answered with yes; then the history in memory is empty and the
    clearing is logged. When the file can be written it then holds the empty
    history; when the write fails the file is left as it was if [open]
    itself failed, and is emptied if the failure came after
    [open(.., 'w')]; in all cases but the failed [open] a later load returns
    the empty sequence. *)
Theorem clear_history_effect (reply_yes : bool) (w : world) :
  clear_history false w = (Ok tt, w, []) /\
  outcome (clear_history reply_yes) w = Ok tt /\
  landing_history (exec (clear_history true) w) = [] /\
  In (log_signal LogCleared) (events (clear_history true) w) /\
  (disk_writable w = true ->
     history_file (exec (clear_history true) w) = Json []) /\
  (disk_writable w = false ->
     In (log_signal LogSaveFailed) (events (clear_history true) w) /\
     (disk_openable w = false ->
        history_file (exec (clear_history true) w) = history_file w) /\
     (disk_openable w = true ->
        history_file (exec (clear_history true) w) = Garbled)) /\
  (disk_writable w || disk_openable w = true ->
     load_landing_history (history_file (exec (clear_history true) w)) = Ok []).
Proof.
  assert (Hrun : clear_history true w =
                 (Ok tt, persisted [] (set_landing_history [] w),
                  (if disk_writable w then [] else [log_signal LogSaveFailed])
                    ++ [update_history_table []; log_signal LogCleared])).
  { unfold clear_history, when. unfold bind at 1, modify at 1.
    unfold bind at 1. rewrite save_landing_history_run.
    cbn [landing_history set_landing_history disk_writable].
    unfold bind, gets, emit. rewrite landing_history_persisted. cbn.
    destruct (disk_writable w), (disk_openable w); reflexivity. }
  split; [reflexivity |]. split.
  - destruct reply_yes; unfold outcome; [rewrite Hrun |]; reflexivity.
  - unfold exec, events. rewrite Hrun. cbn [fst snd]. unfold persisted.
    cbn [disk_writable disk_openable set_landing_history].
    split; [destruct (disk_writable w), (disk_openable w); reflexivity |].
    split; [apply in_or_app; right; right; left; reflexivity |].
    split; [intros Hdisk; rewrite Hdisk; reflexivity |].
    split.
    + intros Hdisk. rewrite Hdisk.
      split; [left; reflexivity |].
      split; intros Hopen; rewrite Hopen; reflexivity.
    + destruct (disk_writable w), (disk_openable w); cbn [orb];
        first [reflexivity | discriminate].
Qed.

End HistoryMore.

(** ** More on the polling loop *)

Section LoopMore.

Ltac case_ifs :=
  repeat match goal with
         | |- context [if ?c then _ else _] => destruct c
         end.

(** *** What the blocks of a pass leave alone *)

Lemma check_takeoff_keeps (g : Q) (w : world) :
  let w1 := exec (check_takeoff g) w in
  waypoints w1 = waypoints w /\
  landing_history w1 = landing_history w /\
  history_file w1 = history_file w /\
  disk_writable w1 = disk_writable w /\
  last_check_time w1 = last_check_time w /\
  count is_command (events (check_takeoff g) w) = 0%nat /\
  count is_sleep (events (check_takeoff g) w) = 0%nat.
Proof.
  cbv zeta. unfold exec, events. rewrite check_takeoff_run.
  case_ifs; repeat split.
Qed.

Lemma record_approach_keeps (lat lon alt vs g : Q) (w : world) :
  let w2 := exec (record_approach lat lon alt vs g) w in
  waypoints w2 = waypoints w /\
  landing_history w2 = landing_history w /\
  history_file w2 = history_file w /\
  disk_writable w2 = disk_writable w /\
  last_check_time w2 = last_check_time w.
Proof.
  cbv zeta. unfold exec. rewrite record_approach_run.
  case_ifs; repeat split.
Qed.

Lemma touchdown_keeps (env : tick_env) (lat lon vs g_force : Q) (w : world) :
  let w3 := exec (touchdown env lat lon vs g_force) w in
  waypoints w3 = waypoints w /\
  last_check_time w3 = last_check_time w /\
  disk_writable w3 = disk_writable w /\
  landing_history w3
    = firstn 100 (touchdown_entry env lat lon vs g_force w :: landing_history w) /\
  history_file w3
    = (if disk_writable w then Json (landing_history w3)
       else if disk_openable w then Garbled else history_file w) /\
  count is_command (events (touchdown env lat lon vs g_force) w) = 0%nat /\
  count is_sleep (events (touchdown env lat lon vs g_force) w) = 0%nat.
Proof.
  cbv zeta. unfold exec, events. rewrite touchdown_run. cbn [fst snd].
  unfold persisted. cbn [disk_writable disk_openable set_landing_history set_landing].
  destruct (disk_writable w) eqn:Hdisk, (disk_openable w) eqn:Hopen;
    cbn [waypoints last_check_time disk_writable disk_openable landing_history
         history_file set_recording_approach set_history_file set_landing_history
         set_landing];
    rewrite ?Hdisk, ?Hopen; repeat split; reflexivity.
Qed.

Lemma check_waypoints_keeps (env : tick_env) (lat lon : Q) (w : world) :
  let w4 := exec (check_waypoints env lat lon) w in
  landing_history w4 = landing_history w /\
  history_file w4 = history_file w /\
  disk_writable w4 = disk_writable w.
Proof.
  cbv zeta. unfold exec. rewrite check_waypoints_run.
  case_ifs; repeat split.
Qed.

(** The condition of the landing block, seen from the state before the
    pass: it holds exactly when the pass signals a touchdown. *)
Lemma landing_condition (env : tick_env) (t : telemetry) (w : world) :
  read_all env = Ok t ->
  let w2 := exec (record_approach (t_lat t) (t_lon t) (t_alt t) (t_vs t) (t_on_ground t))
              (exec (check_takeoff (t_on_ground t)) w) in
  b2n (Qeq_bool (t_on_ground t) 1 && was_airborne w2 && negb (on_ground (landing w2)))
    = count is_landing (events (iteration env) w).
Proof.
  intros Ht w2.
  destruct (detector_step (on_ground_reading env) (was_airborne w) (on_ground (landing w)))
    as [[a' l'] [t' f]] eqn:Hstep.
  destruct (iteration_detector env w a' l' t' f Hstep) as (_ & _ & _ & _ & Hc & _).
  rewrite Hc. f_equal.
  unfold on_ground_reading in Hstep. rewrite Ht in Hstep.
  cbn [detector_step] in Hstep. injection Hstep as _ _ _ Hf.
  destruct (check_takeoff_fields (t_on_ground t) w) as (A1 & L1 & _).
  destruct (record_approach_fields (t_lat t) (t_lon t) (t_alt t) (t_vs t) (t_on_ground t)
              (exec (check_takeoff (t_on_ground t)) w)) as (A2 & D2 & _).
  unfold w2. rewrite A2, D2, A1, L1. exact Hf.
Qed.

(** A pass whose reads succeed, block by block. *)
Lemma iteration_blocks (env : tick_env) (t : telemetry) (w : world) :
  read_all env = Ok t ->
  let w1 := exec (check_takeoff (t_on_ground t)) w in
  let w2 := exec (record_approach (t_lat t) (t_lon t) (t_alt t) (t_vs t) (t_on_ground t))
              w1 in
  let w3 := exec (check_landing env (t_lat t) (t_lon t) (t_vs t) (t_g_force t)
                    (t_on_ground t)) w2 in
  let w4 := exec (check_waypoints env (t_lat t) (t_lon t)) w3 in
  exec (iteration env) w = set_last_altitude (t_alt t) w4 /\
  events (iteration env) w
    = position_signal (t_lat t) (t_lon t) (t_heading t) (t_alt t)
        :: events (check_takeoff (t_on_ground t)) w
        ++ events (record_approach (t_lat t) (t_lon t) (t_alt t) (t_vs t) (t_on_ground t))
             w1
        ++ events (check_landing env (t_lat t) (t_lon t) (t_vs t) (t_g_force t)
                     (t_on_ground t)) w2
        ++ events (check_waypoints env (t_lat t) (t_lon t)) w3
        ++ [sleep 1].
Proof.
  intros Ht. cbv zeta. unfold exec at 1, events at 1.
  rewrite iteration_run, Ht, process_run. split; reflexivity.
Qed.

Lemma iteration_failed (env : tick_env) (e : exn) (w : world) :
  read_all env = Raise e ->
  exec (iteration env) w = w /\
  events (iteration env) w = [log_signal (LogMonitoringError e); sleep 2].
Proof.
  intros He. unfold exec, events. rewrite iteration_run, He. split; reflexivity.
Qed.

End LoopMore.

(** *** The approach path is only appended to *)

Section PathExtras.

Lemma iteration_path (env : tick_env) (w : world) :
  approach_path (exec (iteration env) w) = approach_path w ++ approach_point env w.
Proof.
  unfold approach_point. destruct (read_all env) as [t | e] eqn:Ht.
  - destruct (iteration_blocks env t w Ht) as [Hexec _]. rewrite Hexec.
    cbn [approach_path set_last_altitude].
    destruct (check_waypoints_fields env (t_lat t) (t_lon t)
                (exec (check_landing env (t_lat t) (t_lon t) (t_vs t) (t_g_force t)
                         (t_on_ground t))
                   (exec (record_approach (t_lat t) (t_lon t) (t_alt t) (t_vs t)
                            (t_on_ground t))
                      (exec (check_takeoff (t_on_ground t)) w))))
      as (_ & _ & _ & P4).
    destruct (check_landing_fields env (t_lat t) (t_lon t) (t_vs t) (t_g_force t)
                (t_on_ground t)
                (exec (record_approach (t_lat t) (t_lon t) (t_alt t) (t_vs t)
                         (t_on_ground t))
                   (exec (check_takeoff (t_on_ground t)) w)))
      as (_ & _ & _ & P3 & _).
    destruct (check_takeoff_fields (t_on_ground t) w) as (A1 & _ & _ & P1 & _).
    rewrite P4, P3. unfold exec at 1. rewrite record_approach_run, A1, P1.
    replace (was_airborne w || Qeq_bool (t_on_ground t) 0 && negb (was_airborne w))
      with (was_airborne w || Qeq_bool (t_on_ground t) 0)
      by (destruct (was_airborne w), (Qeq_bool (t_on_ground t) 0); reflexivity).
    destruct ((was_airborne w || Qeq_bool (t_on_ground t) 0)
              && Qltb (t_alt t) 3000 && Qltb (t_vs t) (-100)
              && Qeq_bool (t_on_ground t) 0); cbn [fst snd].
    + destruct (recording_approach (exec (check_takeoff (t_on_ground t)) w));
        cbn [approach_path set_approach_path set_recording_approach];
        rewrite ?P1; reflexivity.
    + rewrite P1, app_nil_r. reflexivity.
  - destruct (iteration_failed env e w Ht) as [Hexec _].
    rewrite Hexec, app_nil_r. reflexivity.
Qed.

Lemma approach_point_low (env : tick_env) (w : world) :
  (List.length (approach_point env w) <= 1)%nat /\
  Forall (fun p => (alt_of p < 3000)%Q) (approach_point env w).
Proof.
  unfold approach_point. destruct (read_all env) as [t | e]; [| split; [cbn; lia | constructor]].
  destruct ((was_airborne w || Qeq_bool (t_on_ground t) 0)
            && Qltb (t_alt t) 3000 && Qltb (t_vs t) (-100)
            && Qeq_bool (t_on_ground t) 0) eqn:Hc.
  - split; [cbn; lia |]. constructor; [| constructor].
    apply andb_true_iff in Hc. destruct Hc as [Hc _].
    apply andb_true_iff in Hc. destruct Hc as [Hc _].
    apply andb_true_iff in Hc. destruct Hc as [_ Hlow].
    destruct (Qltb_spec (t_alt t) 3000) as [Hlt | _]; [exact Hlt | discriminate].
  - split; [cbn; lia | constructor].
Qed.

(** X10: the polling loop only ever appends to the approach path: a pass
    adds the aircraft's position as one point exactly when its reads
    succeed, the aircraft is airborne, below 3000 ft, descending faster
    than 100 fpm and not on the ground, and no pass removes or changes a
    point; so over a run the old path is a prefix of the new one, at most one
    point is added per pass, and every added point is below 3000 ft. *)
Theorem approach_path_append_only (envs : list tick_env) (w : world) :
  (forall env w0,
     approach_path (exec (iteration env) w0) = approach_path w0 ++ approach_point env w0) /\
  exists pts : list point,
    approach_path (exec (monitor_loop envs) w) = approach_path w ++ pts /\
    (List.length pts <= List.length envs)%nat /\
    Forall (fun p => (alt_of p < 3000)%Q) pts.
Proof.
  split; [apply iteration_path |].
  revert w. induction envs as [| env rest IH]; intros w.
  - exists []. cbn. rewrite app_nil_r. split; [reflexivity | split; [lia | constructor]].
  - destruct (monitoring w) eqn:Hon.
    + destruct (IH (exec (iteration env) w)) as (pts & Hpath & Hlen & Hlow).
      destruct (approach_point_low env w) as [Hone Hpt].
      exists (approach_point env w ++ pts).
      unfold exec at 1. rewrite monitor_loop_cons by exact Hon. cbn [fst snd].
      split; [| split].
      * rewrite Hpath, iteration_path, app_assoc. reflexivity.
      * rewrite length_app. cbn [List.length]. lia.
      * apply Forall_app. split; assumption.
    + exists []. unfold exec. rewrite monitor_loop_off by exact Hon.
      cbn. rewrite app_nil_r. split; [reflexivity | split; [lia | constructor]].
Qed.

End PathExtras.

(** *** The history and the touchdowns *)

Section HistoryExtras.

Lemma quiet_pass_history (env : tick_env) (w : world) :
  count is_landing (events (iteration env) w) = 0%nat ->
  landing_history (exec (iteration env) w) = landing_history w /\
  history_file (exec (iteration env) w) = history_file w.
Proof.
  intros Hzero. destruct (read_all env) as [t | e] eqn:Ht.
  - destruct (iteration_blocks env t w Ht) as [Hexec _].
    pose proof (landing_condition env t w Ht) as Hcond. cbv zeta in Hcond.
    rewrite Hzero in Hcond. rewrite Hexec.
    cbn [landing_history history_file set_last_altitude].
    set (w1 := exec (check_takeoff (t_on_ground t)) w) in *.
    set (w2 := exec (record_approach (t_lat t) (t_lon t) (t_alt t) (t_vs t)
                       (t_on_ground t)) w1) in *.
    assert (Hw3 : exec (check_landing env (t_lat t) (t_lon t) (t_vs t) (t_g_force t)
                          (t_on_ground t)) w2 = w2).
    { unfold exec. rewrite check_landing_run.
      destruct (Qeq_bool (t_on_ground t) 1 && was_airborne w2
                && negb (on_ground (landing w2))); [discriminate Hcond | reflexivity]. }
    rewrite Hw3.
    destruct (check_waypoints_keeps env (t_lat t) (t_lon t) w2) as (H4 & F4 & _).
    destruct (record_approach_keeps (t_lat t) (t_lon t) (t_alt t) (t_vs t)
                (t_on_ground t) w1) as (_ & H2 & F2 & _).
    destruct (check_takeoff_keeps (t_on_ground t) w) as (_ & H1 & F1 & _).
    fold w1 in H1, F1. fold w2 in H2, F2.
    rewrite H4, F4, H2, F2, H1, F1. split; reflexivity.
  - destruct (iteration_failed env e w Ht) as [Hexec _]. rewrite Hexec.
    split; reflexivity.
Qed.

Lemma touchdown_pass_history (env : tick_env) (w : world) :
  count is_landing (events (iteration env) w) = 1%nat ->
  exists t,
    read_all env = Ok t /\
    landing_history (exec (iteration env) w)
      = firstn 100
          (touchdown_entry env (t_lat t) (t_lon t) (t_vs t) (t_g_force t) w
             :: landing_history w) /\
    history_file (exec (iteration env) w)
      = (if disk_writable w
         then Json (landing_history (exec (iteration env) w))
         else if disk_openable w then Garbled else history_file w).
Proof.
  intros Hone. destruct (touchdown_pass env w Hone) as (t & Ht & _ & _ & _ & Hexec).
  exists t. split; [exact Ht |]. rewrite Hexec.
  cbn [landing_history history_file set_last_altitude].
  set (w3 := exec (touchdown env (t_lat t) (t_lon t) (t_vs t) (t_g_force t)) w).
  destruct (check_waypoints_keeps env (t_lat t) (t_lon t) w3) as (H4 & F4 & _).
  destruct (touchdown_keeps env (t_lat t) (t_lon t) (t_vs t) (t_g_force t) w)
    as (_ & _ & _ & H3 & F3 & _).
  fold w3 in H3, F3. rewrite H4, F4. split; [exact H3 | exact F3].
Qed.

(** X11: the history changes only through touchdowns: a pass that
    signals no touchdown leaves the history and its file as they are; a pass
    that signals one puts exactly one new entry in front, holding the
    vertical speed, g-force and position read in that pass, the time of the
    pass and the rating of that speed and g-force, and writes the result to
    the file when it can be written. *)
Theorem history_follows_touchdowns (env : tick_env) (w : world) :
  (count is_landing (events (iteration env) w) = 0%nat \/
   count is_landing (events (iteration env) w) = 1%nat) /\
  (count is_landing (events (iteration env) w) = 0%nat ->
     landing_history (exec (iteration env) w) = landing_history w /\
     history_file (exec (iteration env) w) = history_file w) /\
  (count is_landing (events (iteration env) w) = 1%nat ->
     exists t e,
       read_all env = Ok t /\
       landing_history (exec (iteration env) w) = firstn 100 (e :: landing_history w) /\
       h_fpm e = t_vs t /\ h_g_force e = t_g_force t /\
       h_lat e = Some (t_lat t) /\ h_lon e = Some (t_lon t) /\
       h_timestamp e = Some (datetime_now env) /\
       (h_rating e, h_rating_text e) = fst (get_landing_rating (t_vs t) (t_g_force t)) /\
       (disk_writable w = true ->
          history_file (exec (iteration env) w)
            = Json (landing_history (exec (iteration env) w)))).
Proof.
  split; [| split].
  - destruct (iteration_fires env w) as (Hc & _). rewrite Hc.
    destruct (on_ground_reading env) as [g |]; [| left; reflexivity].
    destruct (_ && _); [right | left]; reflexivity.
  - apply quiet_pass_history.
  - intros Hone. destruct (touchdown_pass_history env w Hone) as (t & Ht & Hh & Hf).
    exists t, (touchdown_entry env (t_lat t) (t_lon t) (t_vs t) (t_g_force t) w).
    split; [exact Ht |]. split; [exact Hh |].
    unfold touchdown_entry.
    cbn [h_fpm h_g_force h_lat h_lon h_timestamp h_rating h_rating_text].
    do 5 (split; [reflexivity |]).
    split; [destruct (get_landing_rating (t_vs t) (t_g_force t)) as [[r x] c]; reflexivity |].
    intros Hdisk. rewrite Hf, Hdisk. reflexivity.
Qed.

(** *** Passes that never see the aircraft in the air *)

Lemma grounded_pass (env : tick_env) (w : world) :
  was_airborne w = false ->
  grounded env = true ->
  was_airborne (exec (iteration env) w) = false /\
  monitoring (exec (iteration env) w) = monitoring w /\
  landing (exec (iteration env) w) = landing w /\
  approach_path (exec (iteration env) w) = approach_path w /\
  landing_history (exec (iteration env) w) = landing_history w /\
  count is_airborne (events (iteration env) w) = 0%nat /\
  count is_landing (events (iteration env) w) = 0%nat.
Proof.
  intros Hair Hgr.
  destruct (detector_step (on_ground_reading env) (was_airborne w) (on_ground (landing w)))
    as [[a' l'] [t' f]] eqn:Hstep.
  destruct (iteration_detector env w a' l' t' f Hstep) as (Ha & _ & Hm & Hca & Hcl & _).
  assert (Hbits : a' = false /\ t' = false /\ f = false).
  { unfold grounded in Hgr. rewrite Hair in Hstep.
    destruct (on_ground_reading env) as [g |]; cbn [detector_step] in Hstep;
      injection Hstep as Ha' _ Ht' Hf'.
    - apply negb_true_iff in Hgr. rewrite Hgr in Ha', Ht', Hf'.
      destruct (Qeq_bool g 1), (on_ground (landing w)); cbn in Ha', Ht', Hf';
        repeat split; congruence.
    - repeat split; congruence. }
  destruct Hbits as (-> & -> & ->).
  assert (Hland : landing (exec (iteration env) w) = landing w).
  { destruct (read_all env) as [t | e] eqn:Ht.
    - destruct (iteration_blocks env t w Ht) as [Hexec _].
      pose proof (landing_condition env t w Ht) as Hcond. cbv zeta in Hcond.
      rewrite Hcl in Hcond. rewrite Hexec. cbn [landing set_last_altitude].
      assert (Hg0 : Qeq_bool (t_on_ground t) 0 = false).
      { unfold grounded, on_ground_reading in Hgr. rewrite Ht in Hgr.
        apply negb_true_iff in Hgr. exact Hgr. }
      assert (Hw1 : exec (check_takeoff (t_on_ground t)) w = w).
      { unfold exec. rewrite check_takeoff_run, Hg0. reflexivity. }
      rewrite Hw1 in *.
      assert (Hw2 : exec (record_approach (t_lat t) (t_lon t) (t_alt t) (t_vs t)
                            (t_on_ground t)) w = w).
      { unfold exec. rewrite record_approach_run, Hg0, andb_false_r. reflexivity. }
      rewrite Hw2 in *.
      assert (Hw3 : exec (check_landing env (t_lat t) (t_lon t) (t_vs t) (t_g_force t)
                            (t_on_ground t)) w = w).
      { unfold exec. rewrite check_landing_run.
        destruct (Qeq_bool (t_on_ground t) 1 && was_airborne w
                  && negb (on_ground (landing w))); [discriminate Hcond | reflexivity]. }
      rewrite Hw3.
      destruct (check_waypoints_fields env (t_lat t) (t_lon t) w) as (_ & D4 & _).
      exact D4.
    - destruct (iteration_failed env e w Ht) as [Hexec _]. rewrite Hexec. reflexivity. }
  assert (Hpath : approach_point env w = []).
  { unfold approach_point. destruct (read_all env) as [t | e] eqn:Ht; [| reflexivity].
    unfold grounded, on_ground_reading in Hgr. rewrite Ht in Hgr.
    apply negb_true_iff in Hgr. rewrite Hgr, andb_false_r. reflexivity. }
  split; [exact Ha |]. split; [exact Hm |]. split; [exact Hland |].
  split; [rewrite iteration_path, Hpath, app_nil_r; reflexivity |].
  split; [apply (quiet_pass_history env w Hcl) |].
  split; [exact Hca | exact Hcl].
Qed.

(** X12: a run of the loop in which no pass reads the aircraft off the
    ground (the on-ground reading is never 0; reads may fail) reports
    nothing: no airborne notice and no touchdown are emitted, no approach
    point is recorded, and the landing data and the history stay as they
    were. *)
Theorem parked_session_is_silent (now : Q) (envs : list tick_env) (w : world) :
  forallb grounded envs = true ->
  count is_airborne (events (monitor_flight now envs) w) = 0%nat /\
  count is_landing (events (monitor_flight now envs) w) = 0%nat /\
  approach_path (exec (monitor_flight now envs) w) = approach_path w /\
  landing (exec (monitor_flight now envs) w) = landing w /\
  landing_history (exec (monitor_flight now envs) w) = landing_history w.
Proof.
  intros Hall.
  assert (Hloop : forall envs0 w0,
             forallb grounded envs0 = true ->
             was_airborne w0 = false ->
             count is_airborne (events (monitor_loop envs0) w0) = 0%nat /\
             count is_landing (events (monitor_loop envs0) w0) = 0%nat /\
             approach_path (exec (monitor_loop envs0) w0) = approach_path w0 /\
             landing (exec (monitor_loop envs0) w0) = landing w0 /\
             landing_history (exec (monitor_loop envs0) w0) = landing_history w0).
  { induction envs0 as [| env rest IH]; intros w0 Hgr Hair.
    - repeat split.
    - cbn [forallb] in Hgr. apply andb_true_iff in Hgr. destruct Hgr as [Hgr Hrest].
      destruct (monitoring w0) eqn:Hon.
      + destruct (grounded_pass env w0 Hair Hgr) as (Ha & _ & Hl & Hp & Hh & Hca & Hcl).
        destruct (IH (exec (iteration env) w0) Hrest Ha) as (Ia & Il & Ip & Id & Ih).
        unfold exec, events. rewrite monitor_loop_cons by exact Hon. cbn [fst snd].
        rewrite !count_app, Hca, Hcl, Ia, Il, Ip, Id, Ih, Hp, Hl, Hh.
        repeat split.
      + unfold exec, events. rewrite monitor_loop_off by exact Hon. repeat split. }
  unfold exec, events. rewrite monitor_flight_run.
  exact (Hloop envs
           (set_recording_approach false
              (set_last_check_time now (set_was_airborne false w)))
           Hall eq_refl).
Qed.

(** Two passes with the aircraft standing on the ground and one pass
    whose reads fail. *)
Lemma parked_session_is_silent_witness :
  count is_landing
    (events (monitor_flight 0
               [env_of on_approach 1 "10:00:01" 1; broken_pass;
                env_of on_approach 3 "10:00:03" 1]) session_start_world) = 0%nat.
Proof.
  apply (parked_session_is_silent 0
           [env_of on_approach 1 "10:00:01" 1; broken_pass;
            env_of on_approach 3 "10:00:03" 1] session_start_world eq_refl).
Defined.

End HistoryExtras.

(** *** Resetting the landing data in flight *)

Section ResetExtras.

Lemma latched_loop_is_silent (envs : list tick_env) (w : world) :
  was_airborne w = true ->
  on_ground (landing w) = true ->
  count is_landing (events (monitor_loop envs) w) = 0%nat.
Proof.
  intros Hair Hlatch. destruct (monitor_loop_budget envs w) as [_ Hbudget].
  rewrite Hair, Hlatch in Hbudget. cbn in Hbudget. lia.
Qed.

(** X13: [reset_landing_data] sets the latch again. When it is used
    while the loop has already seen the aircraft in the air, the rest of
    that run of the loop signals no touchdown, whatever the readings: the
    landing that follows is not recorded. *)
Theorem reset_in_flight_loses_touchdown (envs : list tick_env) (w : world) :
  was_airborne w = true ->
  on_ground (landing (exec reset_landing_data w)) = true /\
  approach_path (exec reset_landing_data w) = [] /\
  landing_history (exec reset_landing_data w) = landing_history w /\
  count is_landing (events (monitor_loop envs) (exec reset_landing_data w)) = 0%nat.
Proof.
  intros Hair. split; [reflexivity |]. split; [reflexivity |]. split; [reflexivity |].
  apply latched_loop_is_silent; [exact Hair | reflexivity].
Qed.

(** The reset is used after the two approach passes of [landing_passes];
    the pass on the ground that follows signals nothing. *)
Lemma reset_in_flight_loses_touchdown_witness :
  count is_landing
    (events (monitor_loop [ground_pass]) (exec reset_landing_data before_touchdown))
    = 0%nat.
Proof.
  apply (reset_in_flight_loses_touchdown [ground_pass] before_touchdown eq_refl).
Defined.

End ResetExtras.

(** *** The landing statistics across flights *)

Section StatisticsAcrossFlights.








End StatisticsAcrossFlights.

(** *** Pause flags and pause commands *)

Section PauseExtras.

Lemma after_check_conserves (lat lon : Q) (wps : list waypoint) :
  (count is_command (flat_map (reaction lat lon) wps)
     + pauses (map (after_check lat lon) wps) = pauses wps)%nat /\
  map fix_of (map (after_check lat lon) wps) = map fix_of wps.
Proof.
  unfold pauses. induction wps as [| wp rest [IHc IHf]]; [split; reflexivity |].
  assert (Hfix : fix_of (after_check lat lon wp) = fix_of wp)
    by (unfold after_check; destruct (triggers lat lon wp); reflexivity).
  assert (Hone : (count is_command (reaction lat lon wp)
                  + b2n (wp_pause (after_check lat lon wp)) = b2n (wp_pause wp))%nat).
  { unfold reaction, after_check, triggers.
    destruct (wp_pause wp) eqn:Hp; cbn [andb]; [| rewrite Hp; reflexivity].
    destruct (within_half_nm_b lat lon wp); [reflexivity | rewrite Hp; reflexivity]. }
  cbn [flat_map map filter]. rewrite count_app, IHf, Hfix.
  split; [| reflexivity].
  destruct (wp_pause (after_check lat lon wp)), (wp_pause wp);
    cbn [List.length b2n] in *; lia.
Qed.

Lemma pass_conserves (env : tick_env) (w : world) :
  (count is_command (events (iteration env) w)
     + pauses (waypoints (exec (iteration env) w)) = pauses (waypoints w))%nat /\
  map fix_of (waypoints (exec (iteration env) w)) = map fix_of (waypoints w).
Proof.
  destruct (read_all env) as [t | e] eqn:Ht.
  - destruct (iteration_blocks env t w Ht) as [Hexec Hevs]. rewrite Hexec, Hevs.
    cbn [waypoints set_last_altitude].
    set (w1 := exec (check_takeoff (t_on_ground t)) w).
    set (w2 := exec (record_approach (t_lat t) (t_lon t) (t_alt t) (t_vs t)
                       (t_on_ground t)) w1).
    set (w3 := exec (check_landing env (t_lat t) (t_lon t) (t_vs t) (t_g_force t)
                       (t_on_ground t)) w2).
    destruct (check_takeoff_keeps (t_on_ground t) w) as (W1 & _ & _ & _ & _ & C1 & _).
    destruct (record_approach_keeps (t_lat t) (t_lon t) (t_alt t) (t_vs t)
                (t_on_ground t) w1) as (W2 & _).
    fold w1 in W1. fold w2 in W2.
    assert (H3 : waypoints w3 = waypoints w2 /\
                 count is_command
                   (events (check_landing env (t_lat t) (t_lon t) (t_vs t) (t_g_force t)
                              (t_on_ground t)) w2) = 0%nat).
    { unfold w3, exec, events. rewrite check_landing_run.
      destruct (_ && _); [| split; reflexivity].
      destruct (touchdown_keeps env (t_lat t) (t_lon t) (t_vs t) (t_g_force t) w2)
        as (W3 & _ & _ & _ & _ & C3 & _).
      split; [exact W3 | exact C3]. }
    destruct H3 as [W3 C3].
    assert (H4 : waypoints (exec (check_waypoints env (t_lat t) (t_lon t)) w3)
                 = (if Qltb 2 (time_time env - last_check_time w3)
                    then map (after_check (t_lat t) (t_lon t)) (waypoints w3)
                    else waypoints w3)).
    { unfold exec. rewrite check_waypoints_run. destruct (Qltb 2 _); reflexivity. }
    rewrite H4, check_waypoints_events.
    change (position_signal (t_lat t) (t_lon t) (t_heading t) (t_alt t) :: ?l)
      with ([position_signal (t_lat t) (t_lon t) (t_heading t) (t_alt t)] ++ l).
    rewrite !count_app, C1, C3.
    rewrite (record_approach_unobserved is_command) by reflexivity.
    rewrite W3, W2, W1.
    destruct (after_check_conserves (t_lat t) (t_lon t) (waypoints w)) as [Hc Hf].
    destruct (Qltb 2 _).
    + split; [| exact Hf]. cbn. unfold count in *. cbn in *. lia.
    + split; reflexivity.
  - destruct (iteration_failed env e w Ht) as [Hexec Hevs]. rewrite Hexec, Hevs.
    split; reflexivity.
Qed.

(** X14: the polling loop never adds, removes, moves or renames a
    waypoint and never sets a pause flag: it only clears pause flags, and
    it sends exactly one pause command for each flag it clears; so the
    commands sent over a run plus the flags still set equal the flags set
    at its start. *)
Theorem pause_commands_match_flags (envs : list tick_env) (w : world) :
  (count is_command (events (monitor_loop envs) w)
     + pauses (waypoints (exec (monitor_loop envs) w)) = pauses (waypoints w))%nat /\
  map fix_of (waypoints (exec (monitor_loop envs) w)) = map fix_of (waypoints w).
Proof.
  revert w. induction envs as [| env rest IH]; intros w; [split; reflexivity |].
  destruct (monitoring w) eqn:Hon.
  - unfold exec, events. rewrite monitor_loop_cons by exact Hon. cbn [fst snd].
    destruct (IH (exec (iteration env) w)) as [Ic If].
    destruct (pass_conserves env w) as [Pc Pf].
    rewrite count_app. split; [lia | congruence].
  - unfold exec, events. rewrite monitor_loop_off by exact Hon. split; reflexivity.
Qed.



End PauseExtras.

(** *** The sleeps of the loop *)

Section SleepExtras.





End SleepExtras.

(** ** The landing panel *)

Section DisplayFacts.

Lemma touchdown_data_fields (env : tick_env) (lat lon vs g : Q) (w : world) :
  touchdown_fpm (touchdown_data env lat lon vs g w) = Some vs /\
  touchdown_g (touchdown_data env lat lon vs g w) = Some g /\
  touchdown_lat (touchdown_data env lat lon vs g w) = Some lat /\
  touchdown_lon (touchdown_data env lat lon vs g w) = Some lon /\
  on_ground (touchdown_data env lat lon vs g w) = true /\
  timestamp (touchdown_data env lat lon vs g w) = Some (datetime_now env).
Proof.
  unfold touchdown_data. destruct (approach_path w) as [| p0 [| p1 rest]];
    repeat split.
Qed.

Lemma rating_label_shown (data : landing_data) :
  filter is_rating_label (update_landing_display data)
    = match touchdown_fpm data, touchdown_g data with
      | Some x, Some y =>
          if negb (Qeq_bool x 0) && negb (Qeq_bool y 0)
          then [rating_labels (get_landing_rating x y)]
          else []
      | _, _ => []
      end.
Proof.
  unfold update_landing_display. rewrite !filter_app.
  assert (H1 : filter is_rating_label
                 (opt_list (touchdown_fpm data) (fun x => [fpm_label x (fpm_color x)])) = [])
    by (destruct (touchdown_fpm data); reflexivity).
  assert (H2 : filter is_rating_label
                 (opt_list (touchdown_g data) (fun x => [g_label x])) = [])
    by (destruct (touchdown_g data); reflexivity).
  assert (H3 : filter is_rating_label
                 (if truthy (touchdown_lat data) && truthy (touchdown_lon data)
                  then opt_list (touchdown_lat data) (fun la =>
                       opt_list (touchdown_lon data) (fun lo => [location_label la lo]))
                  else []) = [])
    by (destruct (touchdown_lat data) as [la |], (touchdown_lon data) as [lo |];
        cbn [truthy andb]; rewrite ?andb_false_r;
        try destruct (negb (Qeq_bool la 0) && negb (Qeq_bool lo 0)); reflexivity).
  assert (H4 : filter is_rating_label
                 (if truthy_str (timestamp data)
                  then opt_list (timestamp data) (fun s => [time_label s]) else []) = [])
    by (destruct (timestamp data) as [s |]; try destruct (truthy_str (Some s)); reflexivity).
  assert (H5 : filter is_rating_label
                 (if truthy_R (approach_distance data)
                  then opt_list (approach_distance data)
                         (fun d => [approach_distance_label d])
                  else []) = [])
    by (destruct (approach_distance data) as [d |]; try destruct (truthy_R (Some d));
        reflexivity).
  assert (H6 : filter is_rating_label
                 (if truthy (avg_descent data)
                  then opt_list (avg_descent data) (fun v => [avg_descent_label v])
                  else []) = [])
    by (destruct (avg_descent data) as [v |]; try destruct (truthy (Some v)); reflexivity).
  rewrite H1, H2, H3, H4, H5, H6. cbn [app].
  destruct (touchdown_fpm data) as [x |], (touchdown_g data) as [y |]; cbn [truthy andb];
    try reflexivity.
  - destruct (negb (Qeq_bool x 0) && negb (Qeq_bool y 0)); reflexivity.
  - rewrite andb_false_r. reflexivity.
Qed.

(** X17: for the landing data of a touchdown the landing panel shows the
    rating of the touchdown's speed and g-force, the same rating its history
    entry holds, unless the speed or the g-force read exactly 0: then the
    panel sets no rating at all, although the history entry is rated. *)
Theorem landing_panel_rating (env : tick_env) (lat lon vs g : Q) (w : world) :
  filter is_rating_label (update_landing_display (touchdown_data env lat lon vs g w))
    = (if negb (Qeq_bool vs 0) && negb (Qeq_bool g 0)
       then [rating_labels (get_landing_rating vs g)]
       else []) /\
  exists e,
    entry_of (touchdown_data env lat lon vs g w) = Some e /\
    (h_rating e, h_rating_text e) = fst (get_landing_rating vs g).
Proof.
  destruct (touchdown_data_fields env lat lon vs g w) as (Hf & Hg & _).
  split.
  - rewrite rating_label_shown, Hf, Hg. reflexivity.
  - exists (touchdown_entry env lat lon vs g w). split; [apply touchdown_data_entry |].
    unfold touchdown_entry. cbn [h_rating h_rating_text].
    destruct (get_landing_rating vs g) as [[r x] c]. reflexivity.
Qed.

(** X18: [zoom_to_landing] zooms to the touchdown coordinates of the last
    touchdown when both are non-zero; before any touchdown, after a reset of
    the landing data, and for a touchdown with latitude or longitude exactly
    0 it only reports that no landing data is available. *)
Theorem zoom_to_landing_cases (env : tick_env) (lat lon vs g : Q) (w : world) :
  zoom_to_landing (touchdown_data env lat lon vs g w)
    = (if negb (Qeq_bool lat 0) && negb (Qeq_bool lon 0)
       then [zoomToLanding lat lon; log_line "🔍 Zoomed to landing location"]
       else [information "No landing data available"]) /\
  zoom_to_landing (landing (exec reset_landing_data w))
    = [information "No landing data available"] /\
  zoom_to_landing fresh_landing_data = [information "No landing data available"].
Proof.
  destruct (touchdown_data_fields env lat lon vs g w) as (_ & _ & Hla & Hlo & _).
  split; [| split; reflexivity].
  unfold zoom_to_landing. rewrite Hla, Hlo. cbn [truthy opt_list].
  destruct (negb (Qeq_bool lat 0) && negb (Qeq_bool lon 0)); reflexivity.
Qed.

End DisplayFacts.

(** ** Route editing *)

Section RouteFacts.

Lemma update_at_facts (f : waypoint -> waypoint) (l : list waypoint) :
  forall i : nat,
    List.length (update_at i f l) = List.length l /\
    (forall j, j <> i -> nth_error (update_at i f l) j = nth_error l j) /\
    nth_error (update_at i f l) i = option_map f (nth_error l i).
Proof.
  induction l as [| wp rest IH]; intros i.
  - assert (Hnil : update_at i f [] = []) by (destruct i; reflexivity).
    rewrite Hnil.
    split; [reflexivity | split; [intros j _; reflexivity | destruct i; reflexivity]].
  - destruct i as [| i]; cbn [update_at List.length].
    + split; [reflexivity |]. split; [| reflexivity].
      intros [| j] Hj; [contradiction | reflexivity].
    + destruct (IH i) as (Hlen & Hother & Hat).
      split; [rewrite Hlen; reflexivity |]. split; [| exact Hat].
      intros [| j] Hj; [reflexivity |]. cbn. apply Hother. congruence.
Qed.

Lemma update_at_unlevelled (v : Q) (l : list waypoint) :
  forall i : nat, map unlevelled (update_at i (set_altitude v) l) = map unlevelled l.
Proof.
  induction l as [| wp rest IH]; intros i; [destruct i; reflexivity |].
  destruct i as [| i]; cbn [update_at map]; [reflexivity |].
  rewrite IH. reflexivity.
Qed.

Lemma update_waypoint_altitude_run (idx : Z) (altitude : Q) (w : world) :
  update_waypoint_altitude idx altitude w =
    if ((0 <=? idx) && (idx <? Z.of_nat (List.length (waypoints w))))%Z
    then (Ok tt,
          set_waypoints (update_at (Z.to_nat idx) (set_altitude altitude) (waypoints w)) w,
          [])
    else (Ok tt, w, []).
Proof.
  unfold update_waypoint_altitude, bind at 1, gets.
  destruct ((0 <=? idx) && (idx <? Z.of_nat (List.length (waypoints w))))%Z eqn:Hin;
    [| reflexivity].
  unfold bind, lift, setitem, modify. rewrite Hin. reflexivity.
Qed.

(** X19: [update_waypoint_altitude] never raises. For an index inside
    the route it sets the altitude of that waypoint and nothing else: the
    number and order of the waypoints, their names, coordinates and pause
    flags and all other altitudes are unchanged. For any other index, a
    negative one included, it does nothing. *)
Theorem update_waypoint_altitude_guarded (idx : Z) (altitude : Q) (w : world) :
  outcome (update_waypoint_altitude idx altitude) w = Ok tt /\
  events (update_waypoint_altitude idx altitude) w = [] /\
  map unlevelled (waypoints (exec (update_waypoint_altitude idx altitude) w))
    = map unlevelled (waypoints w) /\
  ((idx < 0 \/ Z.of_nat (List.length (waypoints w)) <= idx)%Z ->
     exec (update_waypoint_altitude idx altitude) w = w) /\
  ((0 <= idx < Z.of_nat (List.length (waypoints w)))%Z ->
     option_map wp_altitude
       (nth_error (waypoints (exec (update_waypoint_altitude idx altitude) w))
          (Z.to_nat idx)) = Some altitude /\
     forall j, j <> Z.to_nat idx ->
       nth_error (waypoints (exec (update_waypoint_altitude idx altitude) w)) j
         = nth_error (waypoints w) j).
Proof.
  unfold outcome, events, exec. rewrite update_waypoint_altitude_run.
  destruct ((0 <=? idx) && (idx <? Z.of_nat (List.length (waypoints w))))%Z eqn:Hin.
  - apply andb_true_iff in Hin. destruct Hin as [H0 Hn].
    apply Z.leb_le in H0. apply Z.ltb_lt in Hn.
    cbn [fst snd waypoints set_waypoints].
    destruct (update_at_facts (set_altitude altitude) (waypoints w) (Z.to_nat idx))
      as (_ & Hother & Hat).
    split; [reflexivity |]. split; [reflexivity |].
    split; [apply update_at_unlevelled |]. split; [intros [Hneg | Hbig]; lia |].
    intros _. split; [| exact Hother].
    rewrite Hat.
    destruct (nth_error (waypoints w) (Z.to_nat idx)) as [wp |] eqn:Hnth;
      [reflexivity |].
    apply nth_error_None in Hnth. lia.
  - cbn [fst snd]. split; [reflexivity |]. split; [reflexivity |].
    split; [reflexivity |]. split; [reflexivity |].
    intros [H0 Hn]. apply andb_false_iff in Hin.
    destruct Hin as [Hin | Hin]; [apply Z.leb_gt in Hin | apply Z.ltb_ge in Hin]; lia.
Qed.

End RouteFacts.
